(** * Barbatos tensor sub-system: the node communicator and the partial
      reduce operator

    A shallow embedding of [src/communication/communicator.cc] and of
    [src/operations/partial_reduce_op.cc].

    The communicator talks to MPI; the transport is modelled as a world of
    per-node mailboxes, threaded through a small state monad.  Every MPI call
    may fail: its outcome is read from a script carried by the world, so that
    the failure paths of the C++ code are reachable.  A blocking call with
    nothing to match does not return ([None]).  A write past the end of the
    buffer it was given is kept in the log of the run.

    The operator talks to the tensor store, to the tensor factory and to a
    user-defined kernel; these live in headers of the repository and are
    modelled from the specification of their interfaces. *)

From Stdlib Require Import ZArith Lia.
From Stdlib.Strings Require Import Byte String.
From stdpp Require Import base gmap list.

Open Scope Z_scope.

(* ===================================================================== *)
(** * Part I: definitions *)
(* ===================================================================== *)

(** ** Machine integers and memory images *)

Module Wire.

Definition INT_MAX : Z := 2 ^ 31 - 1.

(** Conversion to [int] / [int32_t]: two's complement wrap-around. *)
Definition to_int32 (z : Z) : Z := (z + 2 ^ 31) mod 2 ^ 32 - 2 ^ 31.

Definition Z_of_byte (b : byte) : Z := Z.of_N (Byte.to_N b).

Definition byte_of_Z (z : Z) : byte :=
  default x00 (Byte.of_N (Z.to_N (z mod 256))).

(** The [w] bytes an integer occupies in memory (little endian, two's
    complement), and the unsigned number a run of bytes stands for. *)
Fixpoint encode_le (w : nat) (v : Z) : list byte :=
  match w with
  | O => []
  | S w' => byte_of_Z v :: encode_le w' (v / 256)
  end.

Fixpoint decode_le (bs : list byte) : Z :=
  match bs with
  | [] => 0
  | b :: bs' => Z_of_byte b + 256 * decode_le bs'
  end.

Definition signed (w : nat) (u : Z) : Z :=
  if u <? 2 ^ (8 * Z.of_nat w - 1) then u else u - 2 ^ (8 * Z.of_nat w).

(** [v.data()] seen as [v.size() * sizeof(T)] chars. *)
Definition vector_image (w : nat) (v : list Z) : list byte :=
  concat (map (encode_le w) v).

(** A [std::vector<T> p(count)] after [bytes] were copied over [p.data()]:
    element [i] is read from bytes [i*w .. i*w + w - 1]. *)
Fixpoint vector_of_image (w count : nat) (bytes : list byte) : list Z :=
  match count with
  | O => []
  | S c => signed w (decode_le (take w bytes)) :: vector_of_image w c (drop w bytes)
  end.

(** A caller's buffer after [data] was written at its start. *)
Definition overwrite (buf data : list byte) : list byte :=
  data ++ drop (length data) buf.

End Wire.

(** ** The transport *)

Module Mpi.

Record message := Message {
  msg_source : Z;
  msg_tag : Z;
  msg_bytes : list byte
}.

Record status := Status {
  MPI_SOURCE : Z;
  MPI_TAG : Z;
  st_count : Z
}.

(** One entry per transport call, and one per write that ran past the end
    of the buffer it was given: [count] chars written into [capacity]. *)
Inductive event :=
| EvSsend (self dest tag : Z) (payload : list byte) (ok : bool)
| EvIsend (req : nat) (self dest tag : Z) (payload : list byte) (ok : bool)
| EvWait (req : nat) (ok : bool)
| EvRecv (self source tag : Z) (ok : bool)
| EvMprobe (self source tag : Z) (ok : bool)
| EvMrecv (self : Z) (ok : bool)
| EvOverrun (self : Z) (capacity count : Z).

Record world := World {
  mailbox : gmap Z (list message);   (* per destination, in send order *)
  script : list bool;                (* outcomes of the coming calls *)
  next_request : nat;
  history : list event
}.

Definition M (A : Type) : Type := world -> option (A * world).

Definition ret {A} (a : A) : M A := fun w => Some (a, w).

Definition bind {A B} (m : M A) (k : A -> M B) : M B :=
  fun w => match m w with
           | Some (a, w') => k a w'
           | None => None
           end.

Definition pending (w : world) (node : Z) : list message :=
  default [] (mailbox w !! node).

(** The outcome of the next call: [true] is [MPI_SUCCESS]; an exhausted
    script means no more failures. *)
Definition outcome (w : world) : bool * world :=
  match script w with
  | [] => (true, w)
  | b :: s => (b, World (mailbox w) s (next_request w) (history w))
  end.

(** The outcome scripted for the [i]-th call from now. *)
Definition nth_outcome (i : nat) (w : world) : bool := nth i (script w) true.

Definition record (e : event) (w : world) : world :=
  World (mailbox w) (script w) (next_request w) (history w ++ [e]).

Definition deliver (dest : Z) (m : message) (w : world) : world :=
  World (<[dest := pending w dest ++ [m]]> (mailbox w))
        (script w) (next_request w) (history w).

Definition set_pending (node : Z) (q : list message) (w : world) : world :=
  World (<[node := q]> (mailbox w)) (script w) (next_request w) (history w).

Definition new_request (w : world) : nat * world :=
  (next_request w,
   World (mailbox w) (script w) (S (next_request w)) (history w)).

(** What a send of [count] chars starting at [buf] puts on the wire. *)
Definition payload_of (buf : list byte) (count : Z) : list byte :=
  take (Z.to_nat count) buf.

(** A negative count is refused by the transport. *)
Definition post (self dest tag : Z) (buf : list byte) (count : Z)
    (w : world) : bool * world :=
  let '(ok, w1) := outcome w in
  let ok := ok && (0 <=? count) in
  (ok, if ok then deliver dest (Message self tag (payload_of buf count)) w1
       else w1).

(** Synchronous send.  The rendezvous with the receiver is a matter of
    scheduling: here the message is queued and the call returns, the matching
    receive comes later in the run. *)
Definition MPI_Ssend (self : Z) (buf : list byte) (count dest tag : Z) : M bool :=
  fun w =>
    let '(ok, w1) := post self dest tag buf count w in
    Some (ok, record (EvSsend self dest tag (payload_of buf count) ok) w1).

Definition MPI_Isend (self : Z) (buf : list byte) (count dest tag : Z)
    : M (bool * nat) :=
  fun w =>
    let '(req, w0) := new_request w in
    let '(ok, w1) := post self dest tag buf count w0 in
    Some ((ok, req),
          record (EvIsend req self dest tag (payload_of buf count) ok) w1).

Definition MPI_Wait (req : nat) : M bool :=
  fun w =>
    let '(ok, w1) := outcome w in
    Some (ok, record (EvWait req ok) w1).

(** Sources match by equality or by the wildcard; tags match by equality.
    The tag wildcard of MPI ([MPI_ANY_TAG], a negative number) is not
    modelled: a probe or a receive is taken to be made with a valid,
    non-negative tag. *)
Definition matches (any_node source tag : Z) (m : message) : bool :=
  ((source =? any_node) || (msg_source m =? source)) && (msg_tag m =? tag).

(** The oldest pending message that matches, and the queue without it. *)
Fixpoint take_first (p : message -> bool) (q : list message)
    : option (message * list message) :=
  match q with
  | [] => None
  | m :: q' =>
      if p m then Some (m, q')
      else match take_first p q' with
           | Some (x, rest) => Some (x, m :: rest)
           | None => None
           end
  end.

Definition status_of (m : message) : status :=
  Status (msg_source m) (msg_tag m) (Z.of_nat (length (msg_bytes m))).

(** Matched probe: blocks until a message matches, then takes it out of
    the queue and hands it over as a message handle ([None] stands for an
    error code). *)
Definition MPI_Mprobe (any_node self source tag : Z) : M (option message) :=
  fun w =>
    let '(ok, w1) := outcome w in
    if ok then
      match take_first (matches any_node source tag) (pending w1 self) with
      | Some (m, rest) =>
          Some (Some m,
                record (EvMprobe self source tag true) (set_pending self rest w1))
      | None => None
      end
    else Some (None, record (EvMprobe self source tag false) w1).

Definition MPI_Get_count (s : status) : Z := st_count s.

(** Receives the probed message into a buffer announced as [count] chars;
    returns the chars written. *)
Definition MPI_Mrecv (self : Z) (handle : option message) (count : Z)
    : M (bool * list byte) :=
  fun w =>
    let '(ok, w1) := outcome w in
    match handle with
    | Some m =>
        let ok := ok && (Z.of_nat (length (msg_bytes m)) <=? count) in
        Some ((ok, if ok then msg_bytes m else []),
              record (EvMrecv self ok) w1)
    | None => Some ((false, []), record (EvMrecv self false) w1)
    end.

(** The transport was told to write [count] chars where only [capacity]
    are the buffer's ([capacity < count]): the chars beyond land in memory
    that is not the buffer's.  The behaviour of the program is undefined from
    here on; the log keeps the fault, and the run is carried on with what the
    buffer holds. *)
Definition overrun (self capacity count : Z) : M unit :=
  fun w => Some (tt, record (EvOverrun self capacity count) w).

(** Blocking receive of at most [count] chars. *)
Definition MPI_Recv (any_node self : Z) (count source tag : Z)
    : M (bool * list byte) :=
  fun w =>
    let '(ok, w1) := outcome w in
    if ok then
      match take_first (matches any_node source tag) (pending w1 self) with
      | Some (m, rest) =>
          let fits := Z.of_nat (length (msg_bytes m)) <=? count in
          Some ((fits, if fits then msg_bytes m else []),
                record (EvRecv self source tag fits) (set_pending self rest w1))
      | None => None
      end
    else Some ((false, []), record (EvRecv self source tag false) w1).

End Mpi.

Notation "'let*' p ':=' m 'in' k" := (Mpi.bind m (fun p => k))
  (at level 10, p pattern, m at level 100, k at level 200, only parsing).

(** ** The communicator ([communicator.cc]) *)

Module Communicator.
Import Wire Mpi.

(** The constants of [communicator.h], which is not among the sources, and
    the size of a tensor id.  They are parameters of every operation. *)
Record constants := Constants {
  ANY_NODE : Z;
  SEND_CMD_TAG : Z;
  FORWARD_CMD_TAG : Z;
  NOTIFY_TENSOR_TAG : Z;
  FREE_TAG : Z;
  sizeof_tid : nat
}.

Record mpi_communicator_t := {
  _rank : Z;
  _num_nodes : Z
}.

Definition get_rank (c : mpi_communicator_t) : Z := _rank c.
Definition get_num_nodes (c : mpi_communicator_t) : Z := _num_nodes c.

(** The request structs are declared in [communicator.h]; their fields
    are the ones the code reads and writes. *)
Record async_request_t := AsyncRequest {
  request : nat;
  success : bool
}.

Record sync_request_t := SyncRequest {
  message : option Mpi.message;
  status : Mpi.status;
  num_bytes : Z;
  message_tag : Z;
  sync_success : bool
}.

(** A freshly declared [sync_request_t _req]: the struct is declared in
    [communicator.h]; its [success] flag is taken to start as [true], a
    probe that succeeds never assigns it. *)
Definition fresh_sync_request : sync_request_t :=
  SyncRequest None (Status 0 0 0) 0 0 true.

Record tid_node_id_t := TidNode {
  tid : Z;
  node : Z
}.

(** Modelled from the spec: the command record of [command.h], which is not
    among the sources.  A command names its input and output tensors with
    their owning nodes, lists its declared participants (what [get_nodes()]
    iterates over) and is sent as its in-memory byte image. *)
Record command_t := Command {
  cmd_inputs : list tid_node_id_t;
  cmd_outputs : list tid_node_id_t;
  cmd_nodes : list Z;
  cmd_image : list byte
}.

Definition get_nodes (cmd : command_t) : list Z := cmd_nodes cmd.
Definition get_num_inputs (cmd : command_t) : nat := length (cmd_inputs cmd).
Definition get_num_outputs (cmd : command_t) : nat := length (cmd_outputs cmd).
Definition get_input (cmd : command_t) (idx : nat) : tid_node_id_t :=
  nth idx (cmd_inputs cmd) (TidNode (-1) (-1)).
Definition get_output (cmd : command_t) (idx : nat) : tid_node_id_t :=
  nth idx (cmd_outputs cmd) (TidNode (-1) (-1)).
Definition cmd_num_bytes (cmd : command_t) : Z :=
  Z.of_nat (length (cmd_image cmd)).

(** [_tag + FREE_TAG], an [int]. *)
Definition wire_tag (k : constants) (_tag : Z) : Z :=
  to_int32 (_tag + FREE_TAG k).

Definition recv_sync (k : constants) (c : mpi_communicator_t)
    (_bytes : list byte) (num_bytes : Z) (_node _tag : Z)
    : M (bool * list byte) :=
  let* (ok, data) := MPI_Recv (ANY_NODE k) (_rank c) (to_int32 num_bytes) _node
                          (wire_tag k _tag) in
  ret (ok, overwrite _bytes data).

Definition send_sync (k : constants) (c : mpi_communicator_t)
    (_bytes : list byte) (num_bytes : Z) (_node _tag : Z) : M bool :=
  MPI_Ssend (_rank c) _bytes (to_int32 num_bytes) _node (wire_tag k _tag).

Definition wait_async (_request : async_request_t) : M bool :=
  MPI_Wait (request _request).

Definition tensors_created_notification (k : constants)
    (c : mpi_communicator_t) (out_node : Z) (tensor : list Z) : M bool :=
  MPI_Ssend (_rank c) (vector_image (sizeof_tid k) tensor)
            (to_int32 (Z.of_nat (length tensor) * Z.of_nat (sizeof_tid k)))
            out_node (NOTIFY_TENSOR_TAG k).

(** The vector [p] is given [num_bytes / sizeof(tid_t)] elements, and
    [MPI_Mrecv] is told to write [num_bytes] chars at [p.data()]: when
    [num_bytes] is not a multiple of [sizeof(tid_t)] the last chars are
    written past the end of the vector. *)
Definition receive_tensor_created_notification (k : constants)
    (c : mpi_communicator_t) : M (Z * list Z) :=
  let* probed := MPI_Mprobe (ANY_NODE k) (_rank c) (ANY_NODE k) (NOTIFY_TENSOR_TAG k) in
  match probed with
  | None => ret (-1, [])
  | Some m =>
      let st := status_of m in
      let num_bytes := MPI_Get_count st in
      let count := Z.to_nat (num_bytes / Z.of_nat (sizeof_tid k)) in
      let capacity := Z.of_nat count * Z.of_nat (sizeof_tid k) in
      let* (ok, data) := MPI_Mrecv (_rank c) (Some m) num_bytes in
      let* _ := (if capacity <? Z.of_nat (length data)
                 then overrun (_rank c) capacity (Z.of_nat (length data))
                 else ret tt) in
      if ok then ret (MPI_SOURCE st, vector_of_image (sizeof_tid k) count data)
      else ret (-1, [])
  end.

Definition shutdown_notification_handler (k : constants)
    (c : mpi_communicator_t) : M bool :=
  let tensor := [-1] in
  MPI_Ssend (_rank c) (vector_image (sizeof_tid k) tensor)
            (to_int32 (Z.of_nat (length tensor) * Z.of_nat (sizeof_tid k)))
            (get_rank c) (NOTIFY_TENSOR_TAG k).

Definition send_async (k : constants) (c : mpi_communicator_t)
    (_bytes : list byte) (num_bytes : Z) (_node _tag : Z)
    : M async_request_t :=
  let* (ok, req) := MPI_Isend (_rank c) _bytes (to_int32 num_bytes) _node
                          (wire_tag k _tag) in
  ret (AsyncRequest req ok).

Definition expect_request_sync (k : constants) (c : mpi_communicator_t)
    (_node _tag : Z) : M sync_request_t :=
  let _req := fresh_sync_request in
  let* probed := MPI_Mprobe (ANY_NODE k) (_rank c) _node (wire_tag k _tag) in
  match probed with
  | None =>
      ret (SyncRequest (message _req) (status _req) (num_bytes _req)
                       (message_tag _req) false)
  | Some m =>
      let st := status_of m in
      ret (SyncRequest (Some m) st (MPI_Get_count st) (MPI_TAG st)
                       (sync_success _req))
  end.

Definition receive_request_sync (c : mpi_communicator_t)
    (_bytes : list byte) (_req : sync_request_t) : M (bool * list byte) :=
  let* (ok, data) := MPI_Mrecv (_rank c) (message _req) (num_bytes _req) in
  ret (ok, overwrite _bytes data).

(** The second loop of [op_request] and of [forward_cmd]: one
    [MPI_Isend] per destination, the handles pushed back in order. *)
Fixpoint isend_each (self : Z) (buf : list byte) (count tag : Z)
    (to_sent_to : list Z) (requests : list async_request_t)
    : M (list async_request_t) :=
  match to_sent_to with
  | [] => ret requests
  | node :: rest =>
      let* (ok, req) := MPI_Isend self buf count node tag in
      isend_each self buf count tag rest (requests ++ [AsyncRequest req ok])
  end.

(** The third loop:
    [success = r.success && MPI_Wait(&r.request) == MPI_SUCCESS && success]. *)
Fixpoint wait_each (requests : list async_request_t) (success_so_far : bool)
    : M bool :=
  match requests with
  | [] => ret success_so_far
  | r :: rest =>
      if success r then
        let* waited := MPI_Wait (request r) in
        wait_each rest (waited && success_so_far)
      else wait_each rest false
  end.

(** The first loop of [op_request]. *)
Definition op_request_targets (c : mpi_communicator_t) (cmd : command_t)
    : list Z :=
  foldl (fun to_sent_to node =>
           if negb (node =? _rank c) then to_sent_to ++ [node]
           else to_sent_to)
        [] (get_nodes cmd).

Definition op_request (k : constants) (c : mpi_communicator_t)
    (cmd : command_t) : M bool :=
  let to_sent_to := op_request_targets c cmd in
  let* requests := isend_each (_rank c) (cmd_image cmd) (to_int32 (cmd_num_bytes cmd))
                         (SEND_CMD_TAG k) to_sent_to [] in
  wait_each requests true.

(** [std::find(begin, end, node) == end]. *)
Definition not_found (to_sent_to : list Z) (node : Z) : bool :=
  negb (existsb (Z.eqb node) to_sent_to).

Definition push_new (c : mpi_communicator_t) (to_sent_to : list Z)
    (node : Z) : list Z :=
  if negb (node =? _rank c) && not_found to_sent_to node
  then to_sent_to ++ [node] else to_sent_to.

(** The first two loops of [forward_cmd], over the indices of the inputs
    and then of the outputs. *)
Definition forward_cmd_targets (c : mpi_communicator_t) (cmd : command_t)
    : list Z :=
  let to_sent_to :=
    foldl (fun acc idx => push_new c acc (node (get_input cmd idx)))
          [] (seq 0 (get_num_inputs cmd)) in
  foldl (fun acc idx => push_new c acc (node (get_output cmd idx)))
        to_sent_to (seq 0 (get_num_outputs cmd)).

Definition forward_cmd (k : constants) (c : mpi_communicator_t)
    (cmd : command_t) : M bool :=
  let to_sent_to := forward_cmd_targets c cmd in
  let* requests := isend_each (_rank c) (cmd_image cmd) (to_int32 (cmd_num_bytes cmd))
                         (FORWARD_CMD_TAG k) to_sent_to [] in
  wait_each requests true.

End Communicator.

(** ** The tensor store, the tensor factory and the kernel interface *)

Module Storage.

(** Modelled from the spec: the sentinel tensor id "no tensor". *)
Definition TID_NONE : Z := -1.

(** Modelled from the spec: tensors ([tensor.h], not among the sources).  A
    tensor starts with its meta data: the format id, then what the format
    keeps there. *)
Record tensor_meta_t := TensorMeta {
  fmt_id : Z;
  m : list Z
}.

(** Modelled from the spec: a tensor in its slot of [t_num_bytes] bytes. *)
Record tensor_t := Tensor {
  t_meta : tensor_meta_t;
  t_data : list Z;
  t_num_bytes : Z
}.

(** [tensor->as<tensor_meta_t>()]. *)
Definition as_tensor_meta_t (t : tensor_t) : tensor_meta_t := t_meta t.

(** Modelled from the spec: what a transaction body is handed, per read a
    handle to the tensor, per create a handle to the new slot and its id. *)
Record tensor_ref_t := TensorRef {
  id : Z;
  tensor : tensor_t
}.

Record reservation_result_t := ReservationResult {
  get : list tensor_ref_t;
  create : list tensor_ref_t
}.

(** Modelled from the spec: the node-local tensor store ([storage.h]), with
    the transactions opened on it so far. *)
Record storage_t := StorageT {
  tensors : gmap Z tensor_t;
  transactions : list (list Z * list (Z * Z))   (* reads, creates: as opened *)
}.

Inductive transaction_result :=
| Committed
| ReservationDenied
| NoSuchTensor.

(** Modelled from the spec: the id assigned to a tensor created with
    [TID_NONE], one that is not in use. *)
Definition fresh_tid (used : gset Z) : Z :=
  1 + set_fold Z.max (-1) used.

(** Modelled from the spec: a freshly reserved slot. *)
Definition empty_slot (num_bytes : Z) : tensor_t :=
  Tensor (TensorMeta 0 []) [] num_bytes.

Fixpoint reserve (used : gset Z) (creates : list (Z * Z)) : list tensor_ref_t :=
  match creates with
  | [] => []
  | (t, num_bytes) :: rest =>
      let new_id := if t =? TID_NONE then fresh_tid used else t in
      TensorRef new_id (empty_slot num_bytes) :: reserve ({[new_id]} ∪ used) rest
  end.

Definition lookup_all (st : storage_t) (reads : list Z) : option (list tensor_ref_t) :=
  mapM (fun t => TensorRef t <$> tensors st !! t) reads.

Definition commit (made : list tensor_ref_t) (ts : gmap Z tensor_t) : gmap Z tensor_t :=
  foldl (fun acc r => <[id r := tensor r]> acc) ts made.

(** Modelled from the spec: [storage_t::local_transaction] of
    [storage.h], which is not among the sources.  The body runs under a
    reservation that holds every tensor to read and a fresh slot per tensor
    to create; it leaves the created tensors behind.  Whether a reservation
    can be satisfied is the store's decision ([grants]); when the store
    denies it the body does not run and nothing is stored, and the failure
    reaches the caller, as a C++ exception would. *)
Definition local_transaction {S : Type}
    (grants : gmap Z tensor_t -> list (Z * Z) -> bool)
    (reads : list Z) (creates : list (Z * Z))
    (body : reservation_result_t -> S -> list tensor_t * S)
    (st : storage_t) (s : S) : transaction_result * S * storage_t :=
  let opened := StorageT (tensors st) (transactions st ++ [(reads, creates)]) in
  match lookup_all st reads with
  | None => (NoSuchTensor, s, opened)
  | Some got =>
      if grants (tensors st) creates then
        let slots := reserve (dom (tensors st)) creates in
        let '(made, s') := body (ReservationResult got slots) s in
        (Committed, s',
         StorageT (commit (zip_with TensorRef (map id slots) made) (tensors st))
                  (transactions opened))
      else (ReservationDenied, s, opened)
  end.

(** Modelled from the spec: the format registry ([tensor_factory.h]). *)
Record tensor_factory_t := TensorFactory {
  get_tensor_ftm : string -> Z;
  get_tensor_size : tensor_meta_t -> Z;
  init_tensor : tensor_t -> tensor_meta_t -> tensor_t
}.

(** Modelled from the spec: a user-defined kernel ([ud_function.h]).
    [get_out_meta] fills in the output meta data it is handed;
    [call_ud] fills in the output tensor it is handed. *)
Record ud_impl_t := UdImpl {
  outputTypes : list string;
  get_out_meta : list Z -> tensor_meta_t -> tensor_meta_t -> tensor_meta_t -> tensor_meta_t;
  call_ud : list Z -> tensor_t -> tensor_t -> tensor_t -> tensor_t
}.

End Storage.

(** ** The partial reduce operator ([partial_reduce_op.cc]) *)

Module PartialReduce.
Import Storage.

Record partial_reduce_op_t := PartialReduceOp {
  _lhs : Z;
  _rhs : Z;
  _params : list Z;
  _out_tid : Z;                 (* the caller's variable behind [tid_t &] *)
  _out_meta : tensor_meta_t;
  _id : Z
}.

Definition no_tensor : tensor_ref_t := TensorRef TID_NONE (empty_slot 0).

(** [outputTypes[0]] / [outputTypes.front()]. *)
Definition output_type (reduce_op : ud_impl_t) : string :=
  hd EmptyString (outputTypes reduce_op).

Definition make (factory : tensor_factory_t) (lhs rhs out_tid : Z)
    (params : list Z) (out_meta : tensor_meta_t) (reduce_op : ud_impl_t)
    : partial_reduce_op_t :=
  PartialReduceOp lhs rhs params out_tid out_meta
                  (get_tensor_ftm factory (output_type reduce_op)).

(** The body of the first transaction; [output_size] is the local it
    assigns. *)
Definition metadata_phase (factory : tensor_factory_t) (reduce_op : ud_impl_t)
    (res : reservation_result_t) (s : partial_reduce_op_t * Z)
    : list tensor_t * (partial_reduce_op_t * Z) :=
  let op := fst s in
  let l := nth 0 (get res) no_tensor in
  let r := nth 1 (get res) no_tensor in
  let input_meta_0 := as_tensor_meta_t (tensor l) in
  let input_meta_1 := as_tensor_meta_t (tensor r) in
  let out_meta :=
    get_out_meta reduce_op (_params op) input_meta_0 input_meta_1 (_out_meta op) in
  let type := output_type reduce_op in
  let out_meta := TensorMeta (get_tensor_ftm factory type) (m out_meta) in
  let output_size := get_tensor_size factory out_meta in
  ([], (PartialReduceOp (_lhs op) (_rhs op) (_params op) (_out_tid op)
                        out_meta (_id op),
        output_size)).

(** The body of the second transaction. *)
Definition kernel_phase (factory : tensor_factory_t) (reduce_op : ud_impl_t)
    (res : reservation_result_t) (op : partial_reduce_op_t)
    : list tensor_t * partial_reduce_op_t :=
  let out := init_tensor factory (tensor (nth 0 (create res) no_tensor)) (_out_meta op) in
  let l := tensor (nth 0 (get res) no_tensor) in
  let r := tensor (nth 1 (get res) no_tensor) in
  let out := call_ud reduce_op (_params op) l r out in
  ([out],
   PartialReduceOp (_lhs op) (_rhs op) (_params op)
                   (id (nth 0 (create res) no_tensor))
                   (_out_meta op) (_id op)).

Definition apply (grants : gmap Z tensor_t -> list (Z * Z) -> bool)
    (factory : tensor_factory_t) (reduce_op : ud_impl_t)
    (op : partial_reduce_op_t) (st : storage_t)
    : transaction_result * partial_reduce_op_t * storage_t :=
  let '(r1, (op1, output_size), st1) :=
    local_transaction grants [_lhs op; _rhs op] []
                      (metadata_phase factory reduce_op) st (op, 0) in
  match r1 with
  | Committed =>
      local_transaction grants [_lhs op1; _rhs op1] [(TID_NONE, output_size)]
                        (kernel_phase factory reduce_op) st1 op1
  | _ => (r1, op1, st1)
  end.

End PartialReduce.

(** ** Vocabulary of the properties *)

Module Notions.
Import Wire Mpi Communicator.

(** What the probe of a notification listener finds at node [c]. *)
Definition notification_probe (k : constants) (c : mpi_communicator_t)
    (w : world) : option (Mpi.message * list Mpi.message) :=
  take_first (matches (ANY_NODE k) (ANY_NODE k) (NOTIFY_TENSOR_TAG k))
             (pending w (_rank c)).

(** The tensor ids a notification of [bytes] is read as. *)
Definition received_tids (k : constants) (bytes : list byte) : list Z :=
  vector_of_image (sizeof_tid k)
    (Z.to_nat (Z.of_nat (length bytes) / Z.of_nat (sizeof_tid k))) bytes.

(** The tag a transport call was made with, if it takes one. *)
Definition event_tag (e : event) : option Z :=
  match e with
  | EvSsend _ _ tag _ _ | EvIsend _ _ _ tag _ _
  | EvRecv _ _ tag _ | EvMprobe _ _ tag _ => Some tag
  | EvWait _ _ | EvMrecv _ _ | EvOverrun _ _ _ => None
  end.

(** Reading the log of transport calls. *)
Definition isend_of (e : event) : option (Z * Z) :=
  match e with EvIsend _ _ dest tag _ _ => Some (dest, tag) | _ => None end.

Definition request_of (e : event) : option async_request_t :=
  match e with EvIsend req _ _ _ _ ok => Some (AsyncRequest req ok) | _ => None end.

Definition wait_of (e : event) : option nat :=
  match e with EvWait req _ => Some req | _ => None end.

Definition event_ok (e : event) : bool :=
  match e with
  | EvSsend _ _ _ _ ok | EvIsend _ _ _ _ _ ok | EvWait _ ok
  | EvRecv _ _ _ ok | EvMprobe _ _ _ ok | EvMrecv _ ok => ok
  | EvOverrun _ _ _ => false
  end.

(** Destination and tag of every asynchronous send, in call order. *)
Definition sends_of (h : list event) : list (Z * Z) := omap isend_of h.

(** The requests of all asynchronous sends, and of those whose
    initiation succeeded. *)
Definition issued (h : list event) : list nat :=
  request <$> omap request_of h.

Definition initiated (h : list event) : list nat :=
  request <$> filter (fun r => success r = true) (omap request_of h).

(** The requests waited on, in call order. *)
Definition waited (h : list event) : list nat := omap wait_of h.

(** An [MPI_Isend] of the first [count] chars of [buf] to [dest]. *)
Definition sent_to (self : Z) (buf : list byte) (count tag : Z)
    (e : event) (dest : Z) : Prop :=
  exists req ok, e = EvIsend req self dest tag (payload_of buf count) ok.

(** The nodes that own a tensor named by the command. *)
Definition owners (cmd : command_t) : list Z :=
  node <$> (cmd_inputs cmd ++ cmd_outputs cmd).

(** A tag that is none of the three reserved ones. *)
Definition clear_of_reserved (k : constants) (t : Z) : Prop :=
  t <> SEND_CMD_TAG k /\ t <> FORWARD_CMD_TAG k /\ t <> NOTIFY_TENSOR_TAG k.

(** The reserved tags lie below the free range. *)
Definition reserved_below_free (k : constants) : Prop :=
  0 <= SEND_CMD_TAG k < FREE_TAG k
  /\ 0 <= FORWARD_CMD_TAG k < FREE_TAG k
  /\ 0 <= NOTIFY_TENSOR_TAG k < FREE_TAG k
  /\ FREE_TAG k <= INT_MAX.

(** [send_sync] of the whole of [P] on node [a] for node [b], then on [b]
    [expect_request_sync] and [receive_request_sync] into a new buffer of
    the probed length (holding [junk] so far); returns what each call
    returned. *)
Definition sync_round_trip (k : constants) (a b : mpi_communicator_t)
    (P : list byte) (junk : byte) (T : Z)
    : M (bool * sync_request_t * (bool * list byte)) :=
  let* sent := send_sync k a P (Z.of_nat (length P)) (_rank b) T in
  let* req := expect_request_sync k b (_rank a) T in
  let buf := replicate (Z.to_nat (num_bytes req)) junk in
  let* got := receive_request_sync b buf req in
  ret (sent, req, got).

(** The output meta data the first transaction of
    [partial_reduce_op_t::apply] arrives at for inputs [l] and [r]: what the
    kernel infers, and that with the format id of the declared output
    type. *)
Definition inferred_meta (reduce_op : Storage.ud_impl_t)
    (op : PartialReduce.partial_reduce_op_t) (l r : Storage.tensor_t)
    : Storage.tensor_meta_t :=
  Storage.get_out_meta reduce_op (PartialReduce._params op)
    (Storage.t_meta l) (Storage.t_meta r) (PartialReduce._out_meta op).

Definition phase1_meta (factory : Storage.tensor_factory_t)
    (reduce_op : Storage.ud_impl_t)
    (op : PartialReduce.partial_reduce_op_t) (l r : Storage.tensor_t)
    : Storage.tensor_meta_t :=
  Storage.TensorMeta
    (Storage.get_tensor_ftm factory (PartialReduce.output_type reduce_op))
    (Storage.m (inferred_meta reduce_op op l r)).

(** Contracts of the collaborators: initialising a tensor stores the meta
    data; the kernel leaves the meta data of its output in place. *)
Definition init_stores_meta (factory : Storage.tensor_factory_t) : Prop :=
  forall t mt, Storage.t_meta (Storage.init_tensor factory t mt) = mt.

Definition kernel_keeps_meta (reduce_op : Storage.ud_impl_t) : Prop :=
  forall p a b o,
    Storage.t_meta (Storage.call_ud reduce_op p a b o) = Storage.t_meta o.

End Notions.

(** ** Concrete instances, used to run the definitions *)

Module Fixtures.
Import Mpi Communicator.

(** Sample values for the constants. *)
Definition k0 : constants :=
  {| ANY_NODE := -1; SEND_CMD_TAG := 1; FORWARD_CMD_TAG := 4;
     NOTIFY_TENSOR_TAG := 3; FREE_TAG := 5; sizeof_tid := 4 |}.

Definition node0 : mpi_communicator_t := {| _rank := 0; _num_nodes := 3 |}.
Definition node1 : mpi_communicator_t := {| _rank := 1; _num_nodes := 3 |}.

(** Nothing pending, [outcomes] scripted for the coming calls. *)
Definition quiet (outcomes : list bool) : world := World ∅ outcomes 0 [].

(** A command between nodes 0 and 1, its inputs on node 1 (twice) and
    node 0, its output on node 2. *)
Definition cmd0 : command_t :=
  {| cmd_inputs := [TidNode 10 1; TidNode 11 0; TidNode 12 1];
     cmd_outputs := [TidNode 13 2];
     cmd_nodes := [0; 1];
     cmd_image := [x2a; x00] |}.

(** A command that stays on node 0. *)
Definition local_cmd : command_t :=
  {| cmd_inputs := [TidNode 10 0]; cmd_outputs := [TidNode 11 0];
     cmd_nodes := [0]; cmd_image := [x2a] |}.

(** A format registry with one format, and an element-wise sum kernel
    whose meta data is the length of the vector. *)
Definition factory0 : Storage.tensor_factory_t :=
  {| Storage.get_tensor_ftm := fun _ => 7;
     Storage.get_tensor_size := fun mt => 8 + 4 * hd 0 (Storage.m mt);
     Storage.init_tensor := fun t mt =>
       Storage.Tensor mt (Storage.t_data t) (Storage.t_num_bytes t) |}.

Definition sum0 : Storage.ud_impl_t :=
  {| Storage.outputTypes := ["dense"%string];
     Storage.get_out_meta := fun _ lm _ out =>
       Storage.TensorMeta (Storage.fmt_id out) (Storage.m lm);
     Storage.call_ud := fun _ a b o =>
       Storage.Tensor (Storage.t_meta o)
         (zip_with Z.add (Storage.t_data a) (Storage.t_data b))
         (Storage.t_num_bytes o) |}.

Definition vec (data : list Z) : Storage.tensor_t :=
  Storage.Tensor (Storage.TensorMeta 7 [Z.of_nat (length data)]) data
                 (8 + 4 * Z.of_nat (length data)).

Definition store0 : Storage.storage_t :=
  Storage.StorageT {[ 1 := vec [1; 2]; 2 := vec [10; 20] ]} [].

Definition op0 : PartialReduce.partial_reduce_op_t :=
  PartialReduce.make factory0 1 2 Storage.TID_NONE [] (Storage.TensorMeta 0 []) sum0.

(** A store that always has room, and one that has none. *)
Definition roomy : gmap Z Storage.tensor_t -> list (Z * Z) -> bool :=
  fun _ _ => true.
Definition full : gmap Z Storage.tensor_t -> list (Z * Z) -> bool :=
  fun _ creates => match creates with [] => true | _ => false end.

(** A buffer of 4 GiB and one byte. *)
Definition huge : list byte := replicate (Z.to_nat (2 ^ 32 + 1)) x00.

(** A notification of 6 bytes from node 2 waits at node 0. *)
Definition six_bytes : list byte := [x01; x00; x00; x00; x07; x07].
Definition ragged : world :=
  World {[ 0 := [Message 2 3 six_bytes] ]} [] 0 [].

End Fixtures.

(** ** The command listeners and the self-addressed shutdown command *)

Module Listeners.
Import Wire Mpi Communicator.

(** The body that [expect_op_request] and [expect_cmd] share word for
    word, up to the tag probed: probe any source, size a buffer
    ([new char[num_bytes]]) by the probed count, receive into it and hand
    the buffer over as the command; [None] is [nullptr].  The command is
    its byte image, the cast does not look at it. *)
Definition expect_on (k : constants) (c : mpi_communicator_t) (tag : Z)
    : M (option (list byte)) :=
  let* probed := MPI_Mprobe (ANY_NODE k) (_rank c) (ANY_NODE k) tag in
  match probed with
  | None => ret None
  | Some m =>
      let st := status_of m in
      let num_bytes := MPI_Get_count st in
      let p := replicate (Z.to_nat num_bytes) x00 in
      let* (ok, data) := MPI_Mrecv (_rank c) (Some m) num_bytes in
      if ok then ret (Some (overwrite p data)) else ret None
  end.

Definition expect_op_request (k : constants) (c : mpi_communicator_t)
    : M (option (list byte)) :=
  expect_on k c (SEND_CMD_TAG k).

Definition expect_cmd (k : constants) (c : mpi_communicator_t)
    : M (option (list byte)) :=
  expect_on k c (FORWARD_CMD_TAG k).

(** [command_t::create_shutdown] is in [command.h], not among the sources:
    it is a parameter.
    [return _req.success && MPI_Wait(&_req.request) == MPI_SUCCESS]. *)
Definition shutdown_op_request (k : constants)
    (create_shutdown : Z -> command_t) (c : mpi_communicator_t) : M bool :=
  let cmd := create_shutdown (get_rank c) in
  let* (ok, req) := MPI_Isend (_rank c) (cmd_image cmd)
                              (to_int32 (cmd_num_bytes cmd))
                              (get_rank c) (SEND_CMD_TAG k) in
  if ok then MPI_Wait req else ret false.

End Listeners.

(** ** More vocabulary *)

Module Scenarios.
Import Wire Mpi Communicator Listeners.

(** A run in which the transport reports no error. *)
Definition calm (w : world) : Prop := forall i, nth_outcome i w = true.

(** What the probe of a command listener on [tag] finds at node [c]. *)
Definition command_probe (k : constants) (c : mpi_communicator_t) (tag : Z)
    (w : world) : option (Mpi.message * list Mpi.message) :=
  take_first (matches (ANY_NODE k) (ANY_NODE k) tag) (pending w (_rank c)).

(** A tensor id that fits in [sizeof(tid_t)] bytes. *)
Definition fits_tid (k : constants) (v : Z) : Prop :=
  - 2 ^ (8 * Z.of_nat (sizeof_tid k) - 1) <= v
  < 2 ^ (8 * Z.of_nat (sizeof_tid k) - 1).

(** How often [d] is among [dests]. *)
Definition occurrences (d : Z) (dests : list Z) : nat :=
  length (filter (fun x => x = d) dests).

(** Node [a] announces [tids] to node [b], which then receives. *)
Definition notify_then_receive (k : constants) (a b : mpi_communicator_t)
    (tids : list Z) : M (bool * (Z * list Z)) :=
  let* sent := tensors_created_notification k a (_rank b) tids in
  let* got := receive_tensor_created_notification k b in
  ret (sent, got).

(** Node [a] announces [first] and then [second] to node [b], which then
    receives twice. *)
Definition notify_twice (k : constants) (a b : mpi_communicator_t)
    (first second : list Z) : M ((Z * list Z) * (Z * list Z)) :=
  let* _ := tensors_created_notification k a (_rank b) first in
  let* _ := tensors_created_notification k a (_rank b) second in
  let* got1 := receive_tensor_created_notification k b in
  let* got2 := receive_tensor_created_notification k b in
  ret (got1, got2).

(** [op_request] on node [a], then the dispatch listener of node [b]. *)
Definition dispatch_then_expect (k : constants) (a b : mpi_communicator_t)
    (cmd : command_t) : M (bool * option (list byte)) :=
  let* sent := op_request k a cmd in
  let* got := expect_op_request k b in
  ret (sent, got).

(** [forward_cmd] on node [a], then the forward listener of node [b]. *)
Definition forward_then_expect (k : constants) (a b : mpi_communicator_t)
    (cmd : command_t) : M (bool * option (list byte)) :=
  let* sent := forward_cmd k a cmd in
  let* got := expect_cmd k b in
  ret (sent, got).

(** [shutdown_op_request] on a node, then its own dispatch listener. *)
Definition shutdown_then_expect (k : constants)
    (create_shutdown : Z -> command_t) (c : mpi_communicator_t)
    : M (bool * option (list byte)) :=
  let* sent := shutdown_op_request k create_shutdown c in
  let* got := expect_op_request k c in
  ret (sent, got).

(** [send_async] of the whole of [P] on node [a] for node [b], [recv_sync]
    on [b] into the whole of [buf], then [wait_async] on [a]. *)
Definition async_round_trip (k : constants) (a b : mpi_communicator_t)
    (P buf : list byte) (T : Z)
    : M (async_request_t * (bool * list byte) * bool) :=
  let* handle := send_async k a P (Z.of_nat (length P)) (_rank b) T in
  let* got := recv_sync k b buf (Z.of_nat (length buf)) (_rank a) T in
  let* waited := wait_async handle in
  ret (handle, got, waited).

(** [send_sync] with tag [T] on node [a] for node [b], then
    [expect_request_sync] on [b] for a tag [T']. *)
Definition send_then_expect (k : constants) (a b : mpi_communicator_t)
    (P : list byte) (T T' : Z) : M (bool * sync_request_t) :=
  let* sent := send_sync k a P (Z.of_nat (length P)) (_rank b) T in
  let* req := expect_request_sync k b (_rank a) T' in
  ret (sent, req).

(** Two runs of the operator, one after the other. *)
Definition apply_twice (grants : gmap Z Storage.tensor_t -> list (Z * Z) -> bool)
    (factory : Storage.tensor_factory_t) (reduce_op : Storage.ud_impl_t)
    (op : PartialReduce.partial_reduce_op_t) (st : Storage.storage_t)
    : (Storage.transaction_result * Z) * (Storage.transaction_result * Z)
      * Storage.storage_t :=
  let '(r1, op1, st1) := PartialReduce.apply grants factory reduce_op op st in
  let '(r2, op2, st2) := PartialReduce.apply grants factory reduce_op op1 st1 in
  ((r1, PartialReduce._out_tid op1), (r2, PartialReduce._out_tid op2), st2).

End Scenarios.

(** ** More instances *)

Module MoreFixtures.
Import Mpi Communicator.

(** A stand-in for [command_t::create_shutdown]. *)
Definition shutdown_cmd (rank : Z) : command_t :=
  {| cmd_inputs := []; cmd_outputs := []; cmd_nodes := [rank];
     cmd_image := [xff; x00] |}.

(** At node 1, one message from node 0 under the application tag 7 (wire
    tag 12 with the sample constants). *)
Definition tagged : world :=
  World {[ 1 := [Message 0 12 [x01; x02]] ]} [] 0 [].

(** A command whose participant list names node 1 twice. *)
Definition twice_cmd : command_t :=
  {| cmd_inputs := []; cmd_outputs := []; cmd_nodes := [1; 0; 1];
     cmd_image := [x2a] |}.

End MoreFixtures.

(* ===================================================================== *)
(** * Part II: properties *)
(* ===================================================================== *)

(** ** Memory images *)

Module WireFacts.
Import Wire.

Lemma to_int32_small z : - 2 ^ 31 <= z <= INT_MAX -> to_int32 z = z.
Proof.
  unfold to_int32, INT_MAX. intros Hz.
  rewrite Z.mod_small by lia. lia.
Qed.

Lemma Z_of_byte_range b : 0 <= Z_of_byte b < 256.
Proof.
  unfold Z_of_byte. pose proof (Byte.to_N_bounded b) as Hb. lia.
Qed.

Lemma Z_of_byte_of_Z z : Z_of_byte (byte_of_Z z) = z mod 256.
Proof.
  unfold Z_of_byte, byte_of_Z.
  assert (Hr : 0 <= z mod 256 < 256) by (apply Z.mod_pos_bound; lia).
  pose proof (Byte.to_of_N_option_map (Z.to_N (z mod 256))) as Hm.
  destruct (Z.to_N (z mod 256) <=? 255)%N eqn:Hle.
  - destruct (Byte.of_N (Z.to_N (z mod 256))) as [b|]; simpl in *; [|discriminate].
    injection Hm as ->. lia.
  - apply N.leb_gt in Hle. lia.
Qed.

Lemma length_encode_le w v : length (encode_le w v) = w.
Proof. revert v. induction w as [|w IH]; intros v; simpl; [done|]. by rewrite IH. Qed.

Lemma decode_encode_le w v :
  decode_le (encode_le w v) = v mod 256 ^ Z.of_nat w.
Proof.
  revert v. induction w as [|w IH]; intros v.
  - simpl. by rewrite Z.mod_1_r.
  - cbn [encode_le decode_le]. rewrite IH, Z_of_byte_of_Z.
    rewrite Nat2Z.inj_succ, Z.pow_succ_r by lia.
    assert (Hp : 0 < 256 ^ Z.of_nat w) by (apply Z.pow_pos_nonneg; lia).
    by rewrite (Z.rem_mul_r v 256 (256 ^ Z.of_nat w)) by lia.
Qed.

(** A tensor id of [-1] survives the trip through memory. *)
Lemma minus_one_image w :
  (0 < w)%nat -> signed w (decode_le (encode_le w (-1))) = -1.
Proof.
  intros Hw. rewrite decode_encode_le. unfold signed.
  assert (H256 : 256 ^ Z.of_nat w = 2 ^ (8 * Z.of_nat w)).
  { rewrite <- (Z.pow_mul_r 2 8) by lia. done. }
  rewrite H256.
  assert (Hp : 0 < 2 ^ (8 * Z.of_nat w)) by (apply Z.pow_pos_nonneg; lia).
  assert (Hm : (-1) mod 2 ^ (8 * Z.of_nat w) = 2 ^ (8 * Z.of_nat w) - 1).
  { symmetry. apply (Z.mod_unique _ _ (-1)); lia. }
  rewrite Hm.
  assert (Hhalf : 2 ^ (8 * Z.of_nat w) = 2 * 2 ^ (8 * Z.of_nat w - 1)).
  { rewrite <- Z.pow_succ_r by lia. f_equal. lia. }
  assert (Hq : 0 < 2 ^ (8 * Z.of_nat w - 1)) by (apply Z.pow_pos_nonneg; lia).
  destruct (Z.ltb_spec (2 ^ (8 * Z.of_nat w) - 1) (2 ^ (8 * Z.of_nat w - 1))); lia.
Qed.

Lemma length_vector_of_image w count bytes :
  length (vector_of_image w count bytes) = count.
Proof.
  revert bytes. induction count as [|c IH]; intros bytes; simpl; [done|].
  by rewrite IH.
Qed.

(** Only the first [count * w] bytes are looked at. *)
Lemma vector_of_image_prefix w count bytes :
  vector_of_image w count bytes
  = vector_of_image w count (take (count * w) bytes).
Proof.
  revert bytes. induction count as [|c IH]; intros bytes; [done|].
  cbn [vector_of_image]. f_equal.
  - rewrite take_take. do 3 f_equal. lia.
  - rewrite IH. f_equal.
    replace (S c * w)%nat with (w + c * w)%nat by lia.
    by rewrite <- take_drop_commute.
Qed.

Lemma vector_of_image_lookup w count bytes i :
  (i < count)%nat ->
  vector_of_image w count bytes !! i
  = Some (signed w (decode_le (take w (drop (i * w) bytes)))).
Proof.
  revert bytes i. induction count as [|c IH]; intros bytes i Hi; [lia|].
  destruct i as [|i]; [done|].
  cbn [vector_of_image lookup list_lookup]. rewrite IH by lia.
  rewrite drop_drop. do 4 f_equal.
Qed.

Lemma vector_of_image_singleton w v :
  vector_of_image w 1 (vector_image w [v])
  = [signed w (decode_le (encode_le w v))].
Proof.
  unfold vector_image. simpl. rewrite app_nil_r.
  rewrite firstn_all2; [done|]. by rewrite length_encode_le.
Qed.

End WireFacts.

(** ** The transport *)

Module MpiFacts.
Import Mpi.

Lemma outcome_spec w :
  outcome w
  = (nth_outcome 0 w,
     World (mailbox w) (tail (script w)) (next_request w) (history w)).
Proof. unfold outcome, nth_outcome. destruct w as [mb [|b s] n h]; done. Qed.

Lemma nth_outcome_tail i mb s n h :
  nth_outcome i (World mb (tail s) n h) = nth_outcome (S i) (World mb s n h).
Proof. unfold nth_outcome. simpl. destruct s; [by destruct i|done]. Qed.

Lemma take_first_None p q :
  take_first p q = None <-> Forall (fun m => p m = false) q.
Proof.
  induction q as [|m q IH]; simpl; [by split; [constructor|]|].
  destruct (p m) eqn:Hp.
  - split; [done|]. intros HF. inversion HF; congruence.
  - destruct (take_first p q) as [[x rest]|].
    + split; [done|]. intros HF. inversion HF; subst.
      assert (Hno : Some (x, rest) = None) by by apply IH. done.
    + split; [|done]. intros _. constructor; [done|]. by apply IH.
Qed.

(** A message put behind a queue that holds no match is the one found. *)
Lemma take_first_app_new p q m :
  take_first p q = None -> p m = true -> take_first p (q ++ [m]) = Some (m, q).
Proof.
  induction q as [|x q IH]; simpl; intros Hq Hm; [by rewrite Hm|].
  destruct (p x); [done|].
  destruct (take_first p q) as [[? ?]|]; [done|]. by rewrite IH.
Qed.

(** A blocking send of a non-negative count: the call is logged with
    its outcome, and on success the message joins the destination's queue. *)
Lemma ssend_run self buf count dest tag w :
  0 <= count ->
  exists w1,
    MPI_Ssend self buf count dest tag w = Some (nth_outcome 0 w, w1)
    /\ history w1
       = history w ++ [EvSsend self dest tag (payload_of buf count) (nth_outcome 0 w)]
    /\ (forall i, nth_outcome i w1 = nth_outcome (S i) w)
    /\ pending w1 dest
       = (if nth_outcome 0 w
          then pending w dest ++ [Message self tag (payload_of buf count)]
          else pending w dest).
Proof.
  intros Hc. unfold MPI_Ssend, post. rewrite outcome_spec.
  assert (Hle : (0 <=? count) = true) by by apply Z.leb_le.
  rewrite Hle, andb_true_r.
  eexists. split; [reflexivity|].
  destruct (nth_outcome 0 w); (split; [done|]);
    (split; [intros i; unfold nth_outcome; simpl; by destruct (script w), i|]);
    unfold pending; simpl; by rewrite ?lookup_insert_eq.
Qed.

End MpiFacts.

(** ** Tensor notifications *)

Module NotificationFacts.
Import Wire Mpi Communicator Notions.

Lemma receive_probe_failed k c w :
  nth_outcome 0 w = false ->
  exists w', receive_tensor_created_notification k c w = Some ((-1, []), w').
Proof.
  intros H0. unfold receive_tensor_created_notification, bind, MPI_Mprobe.
  rewrite MpiFacts.outcome_spec, H0. simpl. eauto.
Qed.

Lemma receive_blocks k c w :
  nth_outcome 0 w = true -> notification_probe k c w = None ->
  receive_tensor_created_notification k c w = None.
Proof.
  intros H0 Hq. unfold receive_tensor_created_notification, bind, MPI_Mprobe.
  rewrite MpiFacts.outcome_spec, H0. unfold notification_probe in Hq.
  unfold pending in *. simpl. by rewrite Hq.
Qed.

Lemma receive_matched k c w m rest :
  nth_outcome 0 w = true -> notification_probe k c w = Some (m, rest) ->
  exists w',
    receive_tensor_created_notification k c w
    = Some (if nth_outcome 1 w then (msg_source m, received_tids k (msg_bytes m))
            else (-1, []), w')
    /\ pending w' (_rank c) = rest
    /\ history w'
       = history w
         ++ [EvMprobe (_rank c) (ANY_NODE k) (NOTIFY_TENSOR_TAG k) true;
             EvMrecv (_rank c) (nth_outcome 1 w)]
         ++ (let n := Z.of_nat (length (msg_bytes m)) in
             let capacity :=
               Z.of_nat (Z.to_nat (n / Z.of_nat (sizeof_tid k)))
               * Z.of_nat (sizeof_tid k) in
             if nth_outcome 1 w && (capacity <? n)
             then [EvOverrun (_rank c) capacity n] else []).
Proof.
  intros H0 Hq. unfold notification_probe, pending in Hq.
  unfold receive_tensor_created_notification, MPI_Mprobe, pending.
  unfold bind at 1. rewrite MpiFacts.outcome_spec, H0. cbn [mailbox]. rewrite Hq.
  unfold MPI_Mrecv, MPI_Get_count, status_of. cbn [st_count MPI_SOURCE].
  unfold bind at 1.
  rewrite MpiFacts.outcome_spec, Z.leb_refl, andb_true_r.
  assert (Hnext : forall e q,
            nth_outcome 0 (record e (set_pending q rest
               (World (mailbox w) (tail (script w)) (next_request w) (history w))))
            = nth_outcome 1 w).
  { intros e q. unfold nth_outcome. simpl. by destruct (script w). }
  rewrite Hnext. cbv zeta.
  set (capacity := Z.of_nat (Z.to_nat (_ / _)) * _).
  destruct (nth_outcome 1 w); cbn [andb].
  - destruct (capacity <? Z.of_nat (length (msg_bytes m)));
      unfold bind, overrun, ret; eexists; (split; [reflexivity|]);
      (split; [unfold pending; cbn; by rewrite lookup_insert_eq|]);
      cbn; by rewrite <- !app_assoc.
  - assert (Hno : (capacity <? Z.of_nat (@length byte [])) = false).
    { apply Z.ltb_ge. unfold capacity. simpl. lia. }
    rewrite Hno. unfold bind, ret. eexists. split; [reflexivity|].
    split; [unfold pending; cbn; by rewrite lookup_insert_eq|].
    cbn. by rewrite <- !app_assoc.
Qed.

(** C7: [shutdown_notification_handler] makes one blocking send, to its
    own rank, on the notification tag, of the image of the one-element
    vector [{-1}]; once that send succeeds, a listener that was parked in
    [receive_tensor_created_notification] on this node comes back with
    the list [[-1]] from its own rank. *)
Theorem shutdown_notification_unblocks k c w :
  (0 < sizeof_tid k)%nat -> Z.of_nat (sizeof_tid k) <= INT_MAX ->
  exists w1,
    shutdown_notification_handler k c w = Some (nth_outcome 0 w, w1)
    /\ history w1
       = history w ++ [EvSsend (_rank c) (_rank c) (NOTIFY_TENSOR_TAG k)
                               (vector_image (sizeof_tid k) [-1])
                               (nth_outcome 0 w)]
    /\ (nth_outcome 0 w = true -> nth_outcome 1 w = true ->
        nth_outcome 2 w = true -> notification_probe k c w = None ->
        receive_tensor_created_notification k c w = None
        /\ exists w2,
             receive_tensor_created_notification k c w1
             = Some ((_rank c, [-1]), w2)).
Proof.
  intros Hsz Hmax. unfold shutdown_notification_handler, get_rank.
  set (image := vector_image (sizeof_tid k) [-1]).
  assert (Himg : length image = sizeof_tid k).
  { unfold image, vector_image. simpl.
    by rewrite app_nil_r, WireFacts.length_encode_le. }
  assert (Hcount : to_int32 (Z.of_nat (length [-1]) * Z.of_nat (sizeof_tid k))
                   = Z.of_nat (sizeof_tid k)).
  { rewrite WireFacts.to_int32_small; simpl length; lia. }
  rewrite Hcount.
  destruct (MpiFacts.ssend_run (_rank c) image (Z.of_nat (sizeof_tid k))
              (_rank c) (NOTIFY_TENSOR_TAG k) w) as (w1 & Hrun & Hhist & Hscript & Hpend);
    [lia|].
  assert (Hpay : payload_of image (Z.of_nat (sizeof_tid k)) = image).
  { unfold payload_of. rewrite Nat2Z.id, <- Himg. apply firstn_all. }
  rewrite Hpay in Hhist, Hpend.
  exists w1. split; [done|]. split; [done|].
  intros H0 H1 H2 Hparked. split.
  - by apply receive_blocks.
  - rewrite H0 in Hpend.
    destruct (receive_matched k c w1 (Message (_rank c) (NOTIFY_TENSOR_TAG k) image)
                (pending w (_rank c))) as (w2 & Hrecv & _).
    + by rewrite Hscript.
    + unfold notification_probe. rewrite Hpend.
      apply MpiFacts.take_first_app_new; [done|].
      unfold matches. simpl. by rewrite !Z.eqb_refl.
    + rewrite Hscript, H2 in Hrecv. exists w2. rewrite Hrecv. do 3 f_equal.
      cbn [msg_bytes]. unfold received_tids. rewrite Himg, Z.div_same by lia.
      change (Z.to_nat 1) with 1%nat. unfold image.
      rewrite WireFacts.vector_of_image_singleton.
      by rewrite WireFacts.minus_one_image.
Qed.

Lemma shutdown_notification_unblocks_witness :
  exists w1 w2,
    shutdown_notification_handler Fixtures.k0 Fixtures.node0 (Fixtures.quiet [])
    = Some (true, w1)
    /\ history w1 = [EvSsend 0 0 3 [xff; xff; xff; xff] true]
    /\ receive_tensor_created_notification Fixtures.k0 Fixtures.node0
         (Fixtures.quiet []) = None
    /\ receive_tensor_created_notification Fixtures.k0 Fixtures.node0 w1
       = Some ((0, [-1]), w2).
Proof.
  destruct (shutdown_notification_unblocks Fixtures.k0 Fixtures.node0
              (Fixtures.quiet [])) as (w1 & Hrun & Hhist & Hwake);
    [simpl; lia | vm_compute; discriminate |].
  destruct (Hwake eq_refl eq_refl eq_refl eq_refl) as (Hparked & w2 & Hrecv).
  exists w1, w2. repeat split; assumption.
Defined.

Example notification_probe_fails :
  fst <$> receive_tensor_created_notification Fixtures.k0 Fixtures.node0
            (World (mailbox Fixtures.ragged) [false] 0 [])
  = Some (-1, []).
Proof. reflexivity. Qed.

(** The ragged notification of the fixtures: six bytes for a vector of one
    tensor id, two of them written past its end. *)
Example ragged_notification :
  (fun r => history (snd r))
    <$> receive_tensor_created_notification Fixtures.k0 Fixtures.node0
          Fixtures.ragged
  = Some [EvMprobe 0 (-1) 3 true; EvMrecv 0 true; EvOverrun 0 4 6].
Proof. reflexivity. Qed.

(** A failed receive after a successful probe. *)
Example ragged_notification_receive_fails :
  fst <$> receive_tensor_created_notification Fixtures.k0 Fixtures.node0
            (World (mailbox Fixtures.ragged) [true; false] 0 [])
  = Some (-1, []).
Proof. reflexivity. Qed.

End NotificationFacts.

(** ** Generic tagged traffic *)

Module SyncFacts.
Import Wire Mpi Communicator Notions.

Lemma expect_request_run k c src T w m rest :
  nth_outcome 0 w = true ->
  take_first (matches (ANY_NODE k) src (wire_tag k T)) (pending w (_rank c))
  = Some (m, rest) ->
  exists w',
    expect_request_sync k c src T w
    = Some (SyncRequest (Some m) (status_of m)
                        (Z.of_nat (length (msg_bytes m))) (msg_tag m) true, w')
    /\ forall i, nth_outcome i w' = nth_outcome (S i) w.
Proof.
  intros H0 Hq. unfold expect_request_sync, bind, MPI_Mprobe.
  rewrite MpiFacts.outcome_spec, H0. unfold pending in *. cbn [mailbox].
  rewrite Hq. eexists. split; [reflexivity|].
  intros i. unfold nth_outcome. simpl. by destruct (script w), i.
Qed.

Lemma receive_request_run c buf m st tag w :
  nth_outcome 0 w = true ->
  exists w',
    receive_request_sync c buf
      (SyncRequest (Some m) st (Z.of_nat (length (msg_bytes m))) tag true) w
    = Some ((true, overwrite buf (msg_bytes m)), w').
Proof.
  intros H0. unfold receive_request_sync, bind, MPI_Mrecv.
  rewrite MpiFacts.outcome_spec, H0. cbn [message num_bytes].
  rewrite Z.leb_refl. simpl. eauto.
Qed.

Lemma overwrite_exact (data : list byte) junk :
  overwrite (replicate (length data) junk) data = data.
Proof.
  unfold overwrite. rewrite drop_ge, app_nil_r; [done|].
  by rewrite length_replicate.
Qed.

(** What arrives is the first [(int) num_bytes] bytes of the payload. *)
Lemma sync_round_trip_run k a b (P : list byte) junk T w :
  let count := to_int32 (Z.of_nat (length P)) in
  0 <= count ->
  nth_outcome 0 w = true -> nth_outcome 1 w = true -> nth_outcome 2 w = true ->
  take_first (matches (ANY_NODE k) (_rank a) (wire_tag k T)) (pending w (_rank b))
  = None ->
  exists req w',
    sync_round_trip k a b P junk T w
    = Some ((true, req, (true, take (Z.to_nat count) P)), w')
    /\ sync_success req = true
    /\ num_bytes req = Z.of_nat (length (take (Z.to_nat count) P)).
Proof.
  intros count Hc H0 H1 H2 Hq.
  destruct (MpiFacts.ssend_run (_rank a) P count (_rank b) (wire_tag k T) w Hc)
    as (w1 & Hsend & _ & Hscript & Hpend).
  rewrite H0 in Hsend, Hpend.
  set (msg := Message (_rank a) (wire_tag k T) (payload_of P count)) in *.
  destruct (expect_request_run k b (_rank a) T w1 msg (pending w (_rank b)))
    as (w2 & Hexpect & Hscript2).
  { by rewrite Hscript. }
  { rewrite Hpend. apply MpiFacts.take_first_app_new; [done|].
    unfold matches, msg. simpl. by rewrite !Z.eqb_refl, orb_true_r. }
  destruct (receive_request_run b
              (replicate (Z.to_nat (Z.of_nat (length (msg_bytes msg)))) junk)
              msg (status_of msg) (msg_tag msg) w2) as (w3 & Hrecv).
  { by rewrite Hscript2, Hscript. }
  eexists _, w3. unfold sync_round_trip, bind, send_sync. fold count.
  rewrite Hsend, Hexpect. cbn [num_bytes]. rewrite Hrecv.
  rewrite Nat2Z.id, overwrite_exact.
  split; [reflexivity|]. by split.
Qed.

(** C5, as amended: a payload [P] of at most [INT_MAX] bytes sent with
    [send_sync] from node [a] and matched on node [b] by
    [expect_request_sync] and [receive_request_sync] into a buffer of the
    probed length arrives byte for byte, and the probed length is the
    length of [P]. *)
Theorem sync_round_trip_identity k a b (P : list byte) junk T w :
  Z.of_nat (length P) <= INT_MAX ->
  nth_outcome 0 w = true -> nth_outcome 1 w = true -> nth_outcome 2 w = true ->
  take_first (matches (ANY_NODE k) (_rank a) (wire_tag k T)) (pending w (_rank b))
  = None ->
  exists req w',
    sync_round_trip k a b P junk T w = Some ((true, req, (true, P)), w')
    /\ num_bytes req = Z.of_nat (length P).
Proof.
  intros Hlen H0 H1 H2 Hq.
  assert (Hcount : to_int32 (Z.of_nat (length P)) = Z.of_nat (length P)).
  { apply WireFacts.to_int32_small. lia. }
  destruct (sync_round_trip_run k a b P junk T w) as (req & w' & Hrun & Hok & Hn);
    try done; [rewrite Hcount; lia|].
  rewrite Hcount, Nat2Z.id, firstn_all in Hrun, Hn.
  by exists req, w'.
Qed.

Lemma sync_round_trip_identity_witness :
  exists req w',
    sync_round_trip Fixtures.k0 Fixtures.node0 Fixtures.node1
                    [x01; x02; x03] x00 7 (Fixtures.quiet [])
    = Some ((true, req, (true, [x01; x02; x03])), w')
    /\ num_bytes req = 3.
Proof.
  apply (sync_round_trip_identity Fixtures.k0 Fixtures.node0 Fixtures.node1
           [x01; x02; x03] x00 7 (Fixtures.quiet []));
    [vm_compute; discriminate | reflexivity | reflexivity | reflexivity
    | reflexivity].
Defined.

(** C5 as stated fails on a payload of 2^32 + 1 bytes: [num_bytes] is
    narrowed to the [int] count of [MPI_Ssend], one byte travels, and the
    probed length is 1. *)
Lemma sync_round_trip_truncates :
  exists req w',
    sync_round_trip Fixtures.k0 Fixtures.node0 Fixtures.node1
                    Fixtures.huge x00 7 (Fixtures.quiet [])
    = Some ((true, req, (true, [x00])), w')
    /\ num_bytes req = 1
    /\ Z.of_nat (length Fixtures.huge) = 2 ^ 32 + 1
    /\ [x00] <> Fixtures.huge.
Proof.
  assert (Hlen : Z.of_nat (length Fixtures.huge) = 2 ^ 32 + 1).
  { unfold Fixtures.huge. rewrite length_replicate. apply Z2Nat.id. lia. }
  assert (Hcount : to_int32 (2 ^ 32 + 1) = 1) by reflexivity.
  assert (Htake : take (Z.to_nat 1) Fixtures.huge = [x00]).
  { unfold Fixtures.huge. rewrite take_replicate.
    replace (Z.to_nat 1 `min` Z.to_nat (2 ^ 32 + 1))%nat with 1%nat by lia.
    reflexivity. }
  pose proof (sync_round_trip_run Fixtures.k0 Fixtures.node0 Fixtures.node1
                Fixtures.huge x00 7 (Fixtures.quiet [])) as Hrun.
  cbv zeta in Hrun. rewrite Hlen, Hcount, Htake in Hrun.
  destruct Hrun as (req & w' & Hrun & _ & Hn); try reflexivity; [lia|].
  exists req, w'. split; [exact Hrun|]. split; [exact Hn|]. split; [exact Hlen|].
  intros Heq. apply (f_equal (fun l => Z.of_nat (length l))) in Heq.
  rewrite Hlen in Heq. discriminate Heq.
Qed.

Lemma to_int32_cases z :
  0 <= z <= 2 * INT_MAX ->
  (z <= INT_MAX /\ to_int32 z = z) \/ (INT_MAX < z /\ to_int32 z < 0).
Proof.
  unfold to_int32, INT_MAX. intros Hz.
  destruct (Z_le_gt_dec z (2 ^ 31 - 1)) as [Hle|Hgt].
  - left. split; [done|]. rewrite Z.mod_small by lia. lia.
  - right. split; [lia|].
    replace (z + 2 ^ 31) with (z - 2 ^ 31 + 1 * 2 ^ 32) by lia.
    rewrite Z.mod_add by lia. rewrite Z.mod_small by lia. lia.
Qed.

Lemma wire_tag_clear k T :
  reserved_below_free k -> 0 <= T <= INT_MAX ->
  clear_of_reserved k (wire_tag k T).
Proof.
  intros (Hs & Hf & Hn & Hfree) HT. unfold clear_of_reserved, wire_tag.
  destruct (to_int32_cases (T + FREE_TAG k)) as [[_ ->]|[_ Hneg]]; lia.
Qed.

(** Whatever the constants are, some tag is shifted onto the dispatch
    tag. *)
Lemma dispatch_tag_reachable k :
  - 2 ^ 31 <= SEND_CMD_TAG k <= INT_MAX ->
  wire_tag k (SEND_CMD_TAG k - FREE_TAG k) = SEND_CMD_TAG k.
Proof.
  intros Hs. unfold wire_tag.
  replace (SEND_CMD_TAG k - FREE_TAG k + FREE_TAG k) with (SEND_CMD_TAG k) by lia.
  by apply WireFacts.to_int32_small.
Qed.

Ltac one_call :=
  unfold send_sync, recv_sync, send_async, expect_request_sync, bind, ret,
    MPI_Ssend, MPI_Isend, MPI_Recv, MPI_Mprobe, post, new_request;
  rewrite ?MpiFacts.outcome_spec; simpl;
  repeat match goal with
         | |- context [if ?b then _ else _] => destruct b; simpl
         | |- context [match take_first ?p ?q with _ => _ end] =>
             destruct (take_first p q) as [[? ?]|]; simpl
         end;
  intros Hrun; try discriminate Hrun;
  injection Hrun as <- <-; simpl; eexists; (split; [reflexivity|reflexivity]).

(** C6, as amended: for every non-negative application tag [T], when the
    reserved tags are non-negative and below [FREE_TAG], the tag
    [T + FREE_TAG] that [send_sync], [recv_sync], [send_async] and
    [expect_request_sync] hand to the transport is none of
    [SEND_CMD_TAG], [FORWARD_CMD_TAG] and [NOTIFY_TENSOR_TAG]. *)
Theorem free_tags_clear_of_reserved k T :
  reserved_below_free k -> 0 <= T <= INT_MAX ->
  clear_of_reserved k (wire_tag k T)
  /\ (forall c buf n dest w r w',
        send_sync k c buf n dest T w = Some (r, w') ->
        exists e, history w' = history w ++ [e]
                  /\ event_tag e = Some (wire_tag k T))
  /\ (forall c buf n src w r w',
        recv_sync k c buf n src T w = Some (r, w') ->
        exists e, history w' = history w ++ [e]
                  /\ event_tag e = Some (wire_tag k T))
  /\ (forall c buf n dest w r w',
        send_async k c buf n dest T w = Some (r, w') ->
        exists e, history w' = history w ++ [e]
                  /\ event_tag e = Some (wire_tag k T))
  /\ (forall c src w r w',
        expect_request_sync k c src T w = Some (r, w') ->
        exists e, history w' = history w ++ [e]
                  /\ event_tag e = Some (wire_tag k T)).
Proof.
  intros Hk HT. split; [by apply wire_tag_clear|].
  repeat split; intros; revert H; one_call.
Qed.

Lemma free_tags_clear_of_reserved_witness :
  clear_of_reserved Fixtures.k0 (wire_tag Fixtures.k0 0)
  /\ wire_tag Fixtures.k0 0 = 5.
Proof.
  split; [|reflexivity].
  apply (free_tags_clear_of_reserved Fixtures.k0 0).
  - unfold reserved_below_free, INT_MAX. simpl. lia.
  - unfold INT_MAX. lia.
Defined.

(** C6 as stated fails on a negative tag: [-4] is shifted onto the
    dispatch tag. *)
Lemma negative_tag_hits_dispatch :
  ~ clear_of_reserved Fixtures.k0 (wire_tag Fixtures.k0 (-4)).
Proof. intros (Hs & _). by apply Hs. Qed.

End SyncFacts.

(** ** Command dispatch and forwarding *)

Module DispatchFacts.
Import Wire Mpi Communicator Notions.

(** *** The destination sets *)

Lemma op_request_targets_filter c cmd :
  op_request_targets c cmd = filter (fun n => n <> _rank c) (get_nodes cmd).
Proof.
  unfold op_request_targets.
  assert (Hgen : forall l acc,
            foldl (fun to_sent_to node =>
                     if negb (node =? _rank c) then to_sent_to ++ [node]
                     else to_sent_to) acc l
            = acc ++ filter (fun n => n <> _rank c) l).
  { induction l as [|n l IH]; intros acc; simpl; [by rewrite app_nil_r|].
    rewrite IH. destruct (Z.eqb_spec n (_rank c)) as [->|Hne]; simpl.
    - by rewrite filter_cons_False by (intros H; by apply H).
    - by rewrite filter_cons_True, <- app_assoc by done. }
  apply Hgen.
Qed.

(** An index loop over a vector visits its elements in order. *)
Lemma foldl_seq_nth {A B C} (f : A -> C -> A) (proj : B -> C) (d : B)
    (l : list B) acc :
  foldl (fun a idx => f a (proj (nth idx l d))) acc (seq 0 (length l))
  = foldl f acc (proj <$> l).
Proof.
  assert (Hgen : forall l2 l1 a,
            foldl (fun a idx => f a (proj (nth idx (l1 ++ l2) d))) a
                  (seq (length l1) (length l2))
            = foldl f a (proj <$> l2)).
  { induction l2 as [|x l2 IH]; intros l1 a; [done|].
    cbn [length seq foldl fmap list_fmap].
    rewrite app_nth2, Nat.sub_diag by lia. cbn [nth].
    specialize (IH (l1 ++ [x]) (f a (proj x))).
    rewrite <- app_assoc, length_app in IH. simpl in IH.
    replace (length l1 + 1)%nat with (S (length l1)) in IH by lia. exact IH. }
  apply (Hgen l [] acc).
Qed.

Lemma forward_cmd_targets_fold c cmd :
  forward_cmd_targets c cmd = foldl (push_new c) [] (owners cmd).
Proof.
  unfold forward_cmd_targets, owners, get_num_inputs, get_num_outputs,
    get_input, get_output.
  by rewrite fmap_app, foldl_app, !foldl_seq_nth.
Qed.

Lemma not_found_spec l n : not_found l n = true <-> n ∉ l.
Proof.
  unfold not_found. rewrite negb_true_iff, <- not_true_iff_false, existsb_exists.
  split.
  - intros Hno Hin. apply Hno. exists n. split; [by apply list_elem_of_In|].
    apply Z.eqb_refl.
  - intros Hno (x & Hin & Heq). apply Z.eqb_eq in Heq. subst x.
    by apply Hno, list_elem_of_In.
Qed.

Lemma push_new_spec c acc l :
  NoDup acc ->
  NoDup (foldl (push_new c) acc l)
  /\ forall n, n ∈ foldl (push_new c) acc l <-> n ∈ acc \/ (n ∈ l /\ n <> _rank c).
Proof.
  revert acc. induction l as [|x l IH]; intros acc Hacc; simpl.
  - split; [done|]. intros n. split; [by left|]. intros [?|[Hin _]]; [done|].
    by apply not_elem_of_nil in Hin.
  - assert (Hstep : NoDup (push_new c acc x)
                    /\ forall n, n ∈ push_new c acc x
                                 <-> n ∈ acc \/ (n = x /\ n <> _rank c)).
    { unfold push_new.
      destruct (Z.eqb_spec x (_rank c)) as [Hx|Hx]; simpl.
      - split; [done|]. intros n. split; [by left|]. intros [?|[-> ?]]; done.
      - destruct (not_found acc x) eqn:Hnf.
        + apply not_found_spec in Hnf. split.
          * apply NoDup_app. split; [done|]. split; [|apply NoDup_singleton].
            intros y Hy Hy'. apply list_elem_of_singleton in Hy'. by subst.
          * intros n. rewrite elem_of_app, list_elem_of_singleton.
            split; intros [?|?]; auto. { right. by subst. } tauto.
        + assert (Hin : x ∈ acc).
          { destruct (decide (x ∈ acc)) as [?|Hno]; [done|].
            apply not_found_spec in Hno. congruence. }
          split; [done|]. intros n. split; [by left|].
          intros [?|[-> _]]; done. }
    destruct Hstep as [Hnd Hmem].
    destruct (IH _ Hnd) as [Hnd' Hmem']. split; [done|].
    intros n. rewrite Hmem', Hmem, elem_of_cons. tauto.
Qed.

(** The destinations of [forward_cmd]: every owner but the caller, once. *)
Lemma forward_cmd_targets_spec c cmd :
  NoDup (forward_cmd_targets c cmd)
  /\ forall n, n ∈ forward_cmd_targets c cmd <-> n ∈ owners cmd /\ n <> _rank c.
Proof.
  rewrite forward_cmd_targets_fold.
  destruct (push_new_spec c [] (owners cmd) (NoDup_nil_2 (A:=Z))) as [Hnd Hmem].
  split; [done|]. intros n. rewrite Hmem. split; [|by right].
  intros [Hin|?]; [|done]. by apply not_elem_of_nil in Hin.
Qed.

(** The destinations of [op_request]: every listed node but the caller. *)
Lemma op_request_targets_spec c cmd :
  (NoDup (get_nodes cmd) -> NoDup (op_request_targets c cmd))
  /\ forall n, n ∈ op_request_targets c cmd <-> n ∈ get_nodes cmd /\ n <> _rank c.
Proof.
  rewrite op_request_targets_filter. split.
  - apply NoDup_filter.
  - intros n. rewrite list_elem_of_filter. tauto.
Qed.

(** *** The two transport loops *)

Lemma isend_each_run self buf count tag dests requests w :
  exists sends w',
    isend_each self buf count tag dests requests w
    = Some (requests ++ omap request_of sends, w')
    /\ history w' = history w ++ sends
    /\ Forall2 (sent_to self buf count tag) sends dests.
Proof.
  revert requests w. induction dests as [|d dests IH]; intros requests w.
  - exists [], w. simpl. rewrite !app_nil_r. by repeat split.
  - cbn [isend_each]. unfold bind at 1.
    unfold MPI_Isend, new_request, post. rewrite MpiFacts.outcome_spec.
    cbn [script]. set (ok := nth_outcome 0 _ && (0 <=? count)). clearbody ok.
    match goal with
    | |- context [isend_each _ _ _ _ _ _ ?w1] =>
        destruct (IH (requests ++ [AsyncRequest (next_request w) ok]) w1)
          as (sends & w' & Hrun & Hhist & Hall)
    end.
    exists (EvIsend (next_request w) self d tag (payload_of buf count) ok :: sends), w'.
    split; [|split].
    + rewrite Hrun. cbn. by rewrite <- app_assoc.
    + rewrite Hhist. destruct ok; cbn; by rewrite <- app_assoc.
    + constructor; [by exists (next_request w), ok|done].
Qed.

Lemma wait_each_run requests so_far w :
  exists waits w',
    wait_each requests so_far w
    = Some (so_far && forallb success requests && forallb event_ok waits, w')
    /\ history w' = history w ++ waits
    /\ omap wait_of waits
       = request <$> filter (fun r => success r = true) requests
    /\ Forall (fun e => exists req ok, e = EvWait req ok) waits.
Proof.
  revert so_far w. induction requests as [|r requests IH]; intros so_far w.
  - exists [], w. simpl. rewrite app_nil_r, !andb_true_r. by repeat split.
  - cbn [wait_each]. destruct (success r) eqn:Hr.
    + unfold bind at 1. unfold MPI_Wait. rewrite MpiFacts.outcome_spec.
      set (ok := nth_outcome 0 w). clearbody ok.
      match goal with
      | |- context [wait_each _ _ ?w1] =>
          destruct (IH (ok && so_far) w1) as (waits & w' & Hrun & Hhist & Hw & Hall)
      end.
      exists (EvWait (request r) ok :: waits), w'.
      split; [|split; [|split]].
      * rewrite Hrun. do 2 f_equal. cbn [forallb event_ok]. rewrite Hr.
        by destruct ok, so_far, (forallb success requests), (forallb event_ok waits).
      * rewrite Hhist. cbn. by rewrite <- app_assoc.
      * rewrite filter_cons_True by done. cbn. by rewrite Hw.
      * constructor; [by eexists _, _|done].
    + destruct (IH false w) as (waits & w' & Hrun & Hhist & Hw & Hall).
      exists waits, w'. split; [|split; [|split]]; try done.
      * rewrite Hrun. do 2 f_equal. cbn [forallb]. rewrite Hr.
        by destruct so_far.
      * rewrite filter_cons_False by (rewrite Hr; done). done.
Qed.

Lemma waits_log waits :
  Forall (fun e => exists req ok, e = EvWait req ok) waits ->
  omap isend_of waits = [] /\ omap request_of waits = []
  /\ Forall (fun e => is_Some (isend_of e) \/ is_Some (wait_of e)) waits.
Proof.
  induction 1 as [|e waits (req & ok & ->) _ (IH1 & IH2 & IH3)]; [done|].
  cbn. repeat split; try done. constructor; [|done]. right. by eexists.
Qed.

Lemma sent_to_log self buf count tag sends dests :
  Forall2 (sent_to self buf count tag) sends dests ->
  omap isend_of sends = (fun d => (d, tag)) <$> dests
  /\ omap wait_of sends = []
  /\ forallb success (omap request_of sends) = forallb event_ok sends
  /\ Forall (fun e => is_Some (isend_of e) \/ is_Some (wait_of e)) sends.
Proof.
  induction 1 as [|e d sends dests (req & ok & ->) _ (IH1 & IH2 & IH3 & IH4)].
  - by repeat split.
  - cbn. rewrite IH1, IH2, IH3. repeat split. constructor; [|done].
    left. by eexists.
Qed.

(** Both [op_request] and [forward_cmd] are this: send to every
    destination, then wait for what was sent. *)
Lemma send_then_wait self buf count tag dests w :
  exists ok new w',
    bind (isend_each self buf count tag dests []) (fun requests =>
          wait_each requests true) w = Some (ok, w')
    /\ history w' = history w ++ new
    /\ sends_of new = (fun d => (d, tag)) <$> dests
    /\ waited new = initiated new
    /\ (ok = true <-> forallb event_ok new = true)
    /\ Forall (fun e => is_Some (isend_of e) \/ is_Some (wait_of e)) new.
Proof.
  destruct (isend_each_run self buf count tag dests [] w)
    as (sends & w1 & Hsend & Hh1 & Hall).
  destruct (wait_each_run (omap request_of sends) true w1)
    as (waits & w' & Hwait & Hh2 & Hw & Hwaits).
  destruct (waits_log _ Hwaits) as (Hs & Hq & Hw4).
  destruct (sent_to_log _ _ _ _ _ _ Hall) as (Hl1 & Hl2 & Hl3 & Hl4).
  eexists _, (sends ++ waits), w'. unfold bind. rewrite Hsend. cbn [app].
  rewrite Hwait. split; [reflexivity|].
  split; [by rewrite Hh2, Hh1, <- app_assoc|].
  unfold sends_of, waited, initiated. rewrite !omap_app, Hl1, Hl2, Hs, Hq, Hw.
  rewrite !app_nil_r. split; [done|]. split; [done|]. split.
  - rewrite forallb_app, Hl3. cbn [andb]. by rewrite andb_true_iff.
  - apply Forall_app. by split.
Qed.

(** *** The claims *)

Example cmd0_dispatch_targets :
  op_request_targets Fixtures.node0 Fixtures.cmd0 = [1].
Proof. reflexivity. Qed.

Example cmd0_forward_targets :
  forward_cmd_targets Fixtures.node0 Fixtures.cmd0 = [1; 2].
Proof. reflexivity. Qed.

Example cmd0_forward_log :
  (fun r => (fst r, history (snd r)))
    <$> forward_cmd Fixtures.k0 Fixtures.node0 Fixtures.cmd0 (Fixtures.quiet [])
  = Some (true, [EvIsend 0 0 1 4 [x2a; x00] true; EvIsend 1 0 2 4 [x2a; x00] true;
                 EvWait 0 true; EvWait 1 true]).
Proof. reflexivity. Qed.

Example local_cmd_stays_local :
  op_request Fixtures.k0 Fixtures.node0 Fixtures.local_cmd (Fixtures.quiet [false])
  = Some (true, Fixtures.quiet [false])
  /\ forward_cmd Fixtures.k0 Fixtures.node0 Fixtures.local_cmd (Fixtures.quiet [false])
     = Some (true, Fixtures.quiet [false]).
Proof. split; reflexivity. Qed.

(** A failed wait does not keep the next request from being waited on. *)
Example cmd0_forward_first_wait_fails :
  (fun r => (fst r, history (snd r)))
    <$> forward_cmd Fixtures.k0 Fixtures.node0 Fixtures.cmd0
          (Fixtures.quiet [true; true; false])
  = Some (false, [EvIsend 0 0 1 4 [x2a; x00] true; EvIsend 1 0 2 4 [x2a; x00] true;
                  EvWait 0 false; EvWait 1 true]).
Proof. reflexivity. Qed.

(** C1, as amended: when [get_nodes()] lists every participant once,
    [op_request] makes one [MPI_Isend] on [SEND_CMD_TAG] to each listed
    node other than the caller and no other send, then one [MPI_Wait] on
    each request whose initiation succeeded (on no other), and returns
    [true] exactly when every initiation and every wait succeeded. *)
Theorem op_request_dispatch k c cmd w :
  NoDup (get_nodes cmd) ->
  exists ok new w',
    op_request k c cmd w = Some (ok, w')
    /\ history w' = history w ++ new
    /\ (exists dests,
          sends_of new = (fun d => (d, SEND_CMD_TAG k)) <$> dests
          /\ NoDup dests
          /\ forall n, n ∈ dests <-> n ∈ get_nodes cmd /\ n <> _rank c)
    /\ waited new = initiated new
    /\ (ok = true <-> forallb event_ok new = true)
    /\ Forall (fun e => is_Some (isend_of e) \/ is_Some (wait_of e)) new.
Proof.
  intros Hnodes. unfold op_request.
  destruct (send_then_wait (_rank c) (cmd_image cmd) (to_int32 (cmd_num_bytes cmd))
              (SEND_CMD_TAG k) (op_request_targets c cmd) w)
    as (ok & new & w' & Hrun & Hh & Hsends & Hwaits & Hok & Honly).
  exists ok, new, w'. repeat (split; [done|]). split; [|done].
  exists (op_request_targets c cmd).
  destruct (op_request_targets_spec c cmd) as [Hnd Hmem]. auto.
Qed.

Lemma op_request_dispatch_witness :
  exists ok new w',
    op_request Fixtures.k0 Fixtures.node0 Fixtures.cmd0 (Fixtures.quiet [])
    = Some (ok, w')
    /\ history w' = history (Fixtures.quiet []) ++ new
    /\ (exists dests,
          sends_of new = (fun d => (d, 1)) <$> dests
          /\ NoDup dests
          /\ forall n, n ∈ dests <-> n ∈ [0; 1] /\ n <> 0)
    /\ waited new = initiated new
    /\ (ok = true <-> forallb event_ok new = true)
    /\ Forall (fun e => is_Some (isend_of e) \/ is_Some (wait_of e)) new.
Proof.
  apply (op_request_dispatch Fixtures.k0 Fixtures.node0 Fixtures.cmd0
           (Fixtures.quiet [])).
  simpl. apply (bool_decide_unpack _). vm_compute. reflexivity.
Defined.

(** C1 as stated fails when an initiation fails: the request of the
    failed [MPI_Isend] is not waited on. *)
Lemma failed_initiation_not_waited :
  exists w',
    op_request Fixtures.k0 Fixtures.node0 Fixtures.cmd0 (Fixtures.quiet [false])
    = Some (false, w')
    /\ sends_of (history w') = [(1, 1)]
    /\ issued (history w') = [0%nat]
    /\ waited (history w') = []
    /\ waited (history w') <> issued (history w').
Proof. eexists. repeat split. discriminate. Qed.

(** C2: [forward_cmd] makes one [MPI_Isend] on [FORWARD_CMD_TAG] to each
    node that owns an input or an output tensor of the command, the
    caller excepted, and no other send; it then makes one [MPI_Wait] on each
    request whose initiation succeeded, and no other transport call; the
    declared participants play no part; it returns [true] exactly when
    every initiation and every wait succeeded. *)
Theorem forward_cmd_reaches_owners k c cmd w :
  exists ok new w',
    forward_cmd k c cmd w = Some (ok, w')
    /\ history w' = history w ++ new
    /\ (exists dests,
          sends_of new = (fun d => (d, FORWARD_CMD_TAG k)) <$> dests
          /\ NoDup dests
          /\ forall n, n ∈ dests <-> n ∈ owners cmd /\ n <> _rank c)
    /\ waited new = initiated new
    /\ (ok = true <-> forallb event_ok new = true)
    /\ Forall (fun e => is_Some (isend_of e) \/ is_Some (wait_of e)) new
    /\ forall participants,
         forward_cmd k c (Command (cmd_inputs cmd) (cmd_outputs cmd)
                                  participants (cmd_image cmd)) w
         = forward_cmd k c cmd w.
Proof.
  unfold forward_cmd at 1.
  destruct (send_then_wait (_rank c) (cmd_image cmd) (to_int32 (cmd_num_bytes cmd))
              (FORWARD_CMD_TAG k) (forward_cmd_targets c cmd) w)
    as (ok & new & w' & Hrun & Hh & Hsends & Hwaits & Hok & Honly).
  exists ok, new, w'. repeat (split; [done|]). split; [|done].
  exists (forward_cmd_targets c cmd).
  destruct (forward_cmd_targets_spec c cmd) as [Hnd Hmem]. auto.
Qed.

(** C10: when every node a command refers to is the caller itself,
    [op_request] (participants) and [forward_cmd] (tensor owners) make no
    transport call at all and return [true]. *)
Theorem nothing_to_send k c cmd w :
  ((forall n, n ∈ get_nodes cmd -> n = _rank c) ->
   op_request k c cmd w = Some (true, w))
  /\ ((forall n, n ∈ owners cmd -> n = _rank c) ->
      forward_cmd k c cmd w = Some (true, w)).
Proof.
  split; intros Hself.
  - unfold op_request.
    assert (Hnil : op_request_targets c cmd = []).
    { destruct (op_request_targets c cmd) as [|x l] eqn:Ht; [done|].
      assert (Hx : x ∈ op_request_targets c cmd) by (rewrite Ht; left).
      apply (proj2 (op_request_targets_spec c cmd)) in Hx as [Hin Hne].
      by apply Hself in Hin. }
    by rewrite Hnil.
  - unfold forward_cmd.
    assert (Hnil : forward_cmd_targets c cmd = []).
    { destruct (forward_cmd_targets c cmd) as [|x l] eqn:Ht; [done|].
      assert (Hx : x ∈ forward_cmd_targets c cmd) by (rewrite Ht; left).
      apply (proj2 (forward_cmd_targets_spec c cmd)) in Hx as [Hin Hne].
      by apply Hself in Hin. }
    by rewrite Hnil.
Qed.

End DispatchFacts.

(** ** The partial reduce operator *)

Module OperatorFacts.
Import Storage PartialReduce Notions.

Lemma fresh_tid_bound (used : gset Z) x : x ∈ used -> x < fresh_tid used.
Proof.
  unfold fresh_tid. revert x.
  apply (set_fold_ind_L (fun r (X : gset Z) => forall x, x ∈ X -> x < 1 + r)).
  - intros x Hx. by apply not_elem_of_empty in Hx.
  - intros y X r Hy IH x Hx. apply elem_of_union in Hx as [Hx|Hx].
    + apply elem_of_singleton in Hx. subst. lia.
    + specialize (IH x Hx). lia.
Qed.

(** The id handed out for a new tensor is not in use, and is not
    [TID_NONE]. *)
Lemma fresh_tid_fresh (ts : gmap Z tensor_t) :
  ts !! fresh_tid (dom ts) = None /\ fresh_tid (dom ts) <> TID_NONE.
Proof.
  split.
  - apply not_elem_of_dom. intros Hin. apply fresh_tid_bound in Hin. lia.
  - unfold fresh_tid, TID_NONE.
    assert (Hlow : -1 <= set_fold Z.max (-1) (dom ts)); [|lia].
    apply (set_fold_ind_L (fun r (X : gset Z) => -1 <= r)); intros; lia.
Qed.

(** The first transaction: reads only, leaves the store as it was. *)
Lemma metadata_transaction grants factory reduce_op op st l r :
  tensors st !! _lhs op = Some l -> tensors st !! _rhs op = Some r ->
  grants (tensors st) [] = true ->
  local_transaction grants [_lhs op; _rhs op] []
                    (metadata_phase factory reduce_op) st (op, 0)
  = (Committed,
     (PartialReduceOp (_lhs op) (_rhs op) (_params op) (_out_tid op)
                      (phase1_meta factory reduce_op op l r) (_id op),
      get_tensor_size factory (phase1_meta factory reduce_op op l r)),
     StorageT (tensors st) (transactions st ++ [([_lhs op; _rhs op], [])])).
Proof.
  intros Hl Hr Hg. unfold local_transaction, lookup_all. cbn [mapM].
  rewrite Hl, Hr. cbn. by rewrite Hg.
Qed.

(** The whole of [apply], by what the store decides for the output. *)
Lemma apply_run grants factory reduce_op op st l r :
  tensors st !! _lhs op = Some l -> tensors st !! _rhs op = Some r ->
  grants (tensors st) [] = true ->
  let out_meta := phase1_meta factory reduce_op op l r in
  let size := get_tensor_size factory out_meta in
  let new_tid := fresh_tid (dom (tensors st)) in
  let opened :=
    transactions st ++ [([_lhs op; _rhs op], []);
                        ([_lhs op; _rhs op], [(TID_NONE, size)])] in
  apply grants factory reduce_op op st
  = if grants (tensors st) [(TID_NONE, size)]
    then (Committed,
          PartialReduceOp (_lhs op) (_rhs op) (_params op) new_tid out_meta (_id op),
          StorageT (<[new_tid :=
                        call_ud reduce_op (_params op) l r
                                (init_tensor factory (empty_slot size) out_meta)]>
                      (tensors st)) opened)
    else (ReservationDenied,
          PartialReduceOp (_lhs op) (_rhs op) (_params op) (_out_tid op)
                          out_meta (_id op),
          StorageT (tensors st) opened).
Proof.
  intros Hl Hr Hg out_meta size new_tid opened. unfold apply.
  rewrite (metadata_transaction grants factory reduce_op op st l r Hl Hr Hg).
  fold out_meta size. unfold local_transaction, lookup_all.
  cbn [mapM tensors _lhs _rhs transactions]. rewrite Hl, Hr. cbn.
  unfold opened. rewrite <- app_assoc. cbn [app].
  by destruct (grants (tensors st) [(TID_NONE, size)]).
Qed.

(** C3, as amended: with [lhs] and [rhs] in the store and both
    reservations granted, [apply] runs two transactions, the first reading
    [{lhs, rhs}] and creating nothing, the second reading [{lhs, rhs}] again
    and creating one tensor of exactly the size computed for the output meta
    data; that meta data is what the kernel inferred with its format id
    replaced by the registry's id of the declared output type.  The new
    tensor gets an id not in use before, which is written to the
    out-parameter; the store holds under it what the kernel computed from
    [lhs], [rhs] and the slot initialised with that meta data, and (for a
    registry that stores the meta data and a kernel that leaves it in
    place) its meta data is that meta data. *)
Theorem apply_materializes grants factory reduce_op op st l r :
  outputTypes reduce_op <> [] ->
  tensors st !! _lhs op = Some l -> tensors st !! _rhs op = Some r ->
  let inferred := inferred_meta reduce_op op l r in
  let out_meta :=
    TensorMeta (get_tensor_ftm factory (output_type reduce_op)) (m inferred) in
  let size := get_tensor_size factory out_meta in
  grants (tensors st) [] = true ->
  grants (tensors st) [(TID_NONE, size)] = true ->
  exists op' st' out,
    apply grants factory reduce_op op st = (Committed, op', st')
    /\ transactions st'
       = transactions st ++ [([_lhs op; _rhs op], []);
                             ([_lhs op; _rhs op], [(TID_NONE, size)])]
    /\ tensors st !! _out_tid op' = None
    /\ tensors st' = <[_out_tid op' := out]> (tensors st)
    /\ tensors st' !! _out_tid op' = Some out
    /\ out = call_ud reduce_op (_params op) l r
                     (init_tensor factory (empty_slot size) out_meta)
    /\ t_num_bytes (empty_slot size) = size
    /\ (init_stores_meta factory -> kernel_keeps_meta reduce_op ->
        t_meta out = out_meta).
Proof.
  intros _ Hl Hr inferred out_meta size Hg1 Hg2.
  pose proof (apply_run grants factory reduce_op op st l r Hl Hr Hg1) as Hrun.
  cbv zeta in Hrun. change (phase1_meta factory reduce_op op l r) with out_meta in Hrun.
  fold size in Hrun. rewrite Hg2 in Hrun.
  eexists _, _, _. split; [exact Hrun|]. cbn [transactions tensors _out_tid].
  split; [done|]. split; [apply fresh_tid_fresh|]. split; [done|].
  split; [apply lookup_insert_eq|]. split; [done|]. split; [done|].
  intros Hinit Hkeep. by rewrite Hkeep, Hinit.
Qed.

Lemma apply_materializes_witness :
  exists op' st' out,
    apply Fixtures.roomy Fixtures.factory0 Fixtures.sum0 Fixtures.op0 Fixtures.store0
    = (Committed, op', st')
    /\ transactions st' = [([1; 2], []); ([1; 2], [(TID_NONE, 16)])]
    /\ tensors Fixtures.store0 !! _out_tid op' = None
    /\ tensors st' = <[_out_tid op' := out]> (tensors Fixtures.store0)
    /\ tensors st' !! _out_tid op' = Some out
    /\ out = Tensor (TensorMeta 7 [2]) [11; 22] 16
    /\ t_num_bytes (empty_slot 16) = 16
    /\ (init_stores_meta Fixtures.factory0 -> kernel_keeps_meta Fixtures.sum0 ->
        t_meta out = TensorMeta 7 [2]).
Proof.
  apply (apply_materializes Fixtures.roomy Fixtures.factory0 Fixtures.sum0
           Fixtures.op0 Fixtures.store0 (Fixtures.vec [1; 2]) (Fixtures.vec [10; 20]));
    [discriminate | reflexivity | reflexivity | reflexivity | reflexivity].
Defined.

(** C3 as stated fails on the format id: the kernel here infers meta data
    whose format id is the one it was handed (0), and the stored tensor
    carries the registry's id (7). *)
Lemma stored_meta_is_not_inferred_meta :
  exists op' st' out,
    apply Fixtures.roomy Fixtures.factory0 Fixtures.sum0 Fixtures.op0 Fixtures.store0
    = (Committed, op', st')
    /\ tensors st' !! _out_tid op' = Some out
    /\ inferred_meta Fixtures.sum0 Fixtures.op0
                     (Fixtures.vec [1; 2]) (Fixtures.vec [10; 20])
       = TensorMeta 0 [2]
    /\ t_meta out = TensorMeta 7 [2]
    /\ t_meta out <> inferred_meta Fixtures.sum0 Fixtures.op0
                                   (Fixtures.vec [1; 2]) (Fixtures.vec [10; 20]).
Proof. eexists _, _, _. repeat split. discriminate. Qed.

(** C4: when the store denies the reservation of the second transaction,
    [apply] fails with that denial, the out-parameter keeps the value it had
    and the store holds the tensors it held. *)
Theorem apply_denied_leaves_no_trace grants factory reduce_op op st l r :
  tensors st !! _lhs op = Some l -> tensors st !! _rhs op = Some r ->
  grants (tensors st) [] = true ->
  grants (tensors st)
         [(TID_NONE, get_tensor_size factory (phase1_meta factory reduce_op op l r))]
  = false ->
  exists op' st',
    apply grants factory reduce_op op st = (ReservationDenied, op', st')
    /\ _out_tid op' = _out_tid op
    /\ tensors st' = tensors st.
Proof.
  intros Hl Hr Hg1 Hg2.
  pose proof (apply_run grants factory reduce_op op st l r Hl Hr Hg1) as Hrun.
  cbv zeta in Hrun. rewrite Hg2 in Hrun. eauto.
Qed.

Lemma apply_denied_leaves_no_trace_witness :
  exists op' st',
    apply Fixtures.full Fixtures.factory0 Fixtures.sum0 Fixtures.op0 Fixtures.store0
    = (ReservationDenied, op', st')
    /\ _out_tid op' = TID_NONE
    /\ tensors st' = tensors Fixtures.store0.
Proof.
  apply (apply_denied_leaves_no_trace Fixtures.full Fixtures.factory0 Fixtures.sum0
           Fixtures.op0 Fixtures.store0 (Fixtures.vec [1; 2]) (Fixtures.vec [10; 20]));
    reflexivity.
Defined.

End OperatorFacts.

(** ** Runs without transport errors *)

Module CalmFacts.
Import Wire Mpi Communicator Listeners Notions Scenarios.

Lemma calm_outcome w :
  calm w ->
  outcome w
  = (true, World (mailbox w) (tail (script w)) (next_request w) (history w))
  /\ calm (World (mailbox w) (tail (script w)) (next_request w) (history w)).
Proof.
  intros Hc. rewrite MpiFacts.outcome_spec, (Hc 0%nat). split; [done|].
  intros i. rewrite MpiFacts.nth_outcome_tail.
  specialize (Hc (S i)). by destruct w.
Qed.

Lemma calm_irrelevant mb mb' s n n' h h' :
  calm (World mb s n h) -> calm (World mb' s n' h').
Proof. intros Hc i. apply (Hc i). Qed.

Lemma pending_insert mb s n h node q d :
  pending (World (<[node := q]> mb) s n h) d
  = if decide (node = d) then q else pending (World mb s n h) d.
Proof.
  unfold pending. cbn [mailbox]. rewrite lookup_insert.
  by destruct (decide (node = d)).
Qed.

Lemma isend_calm self buf count dest tag w :
  calm w -> 0 <= count ->
  exists w1,
    MPI_Isend self buf count dest tag w = Some ((true, next_request w), w1)
    /\ calm w1
    /\ history w1
       = history w ++ [EvIsend (next_request w) self dest tag
                               (payload_of buf count) true]
    /\ forall d,
         pending w1 d
         = if decide (dest = d)
           then pending w d ++ [Message self tag (payload_of buf count)]
           else pending w d.
Proof.
  intros Hc Hcount. unfold MPI_Isend, new_request, post.
  destruct (calm_outcome (World (mailbox w) (script w) (S (next_request w))
                                (history w))) as [Hout Hc'].
  { by apply (calm_irrelevant (mailbox w) _ _ (next_request w) _ (history w));
      destruct w. }
  rewrite Hout. assert (Hle : (0 <=? count) = true) by by apply Z.leb_le.
  rewrite Hle. cbn [andb]. eexists. split; [reflexivity|].
  split; [|split].
  - unfold record, deliver. cbn. eapply calm_irrelevant, Hc'.
  - by destruct w.
  - intros d. unfold record, deliver. cbn [mailbox script next_request history].
    rewrite pending_insert. destruct (decide (dest = d)); [|by destruct w].
    subst. unfold pending. by destruct w.
Qed.

Lemma wait_calm req w :
  calm w ->
  exists w1,
    MPI_Wait req w = Some (true, w1)
    /\ calm w1 /\ mailbox w1 = mailbox w
    /\ history w1 = history w ++ [EvWait req true].
Proof.
  intros Hc. unfold MPI_Wait. destruct (calm_outcome w Hc) as [-> Hc'].
  eexists. split; [reflexivity|]. split; [|done].
  unfold record. cbn. eapply calm_irrelevant, Hc'.
Qed.

Lemma ssend_calm self buf count dest tag w :
  calm w -> 0 <= count ->
  exists w1,
    MPI_Ssend self buf count dest tag w = Some (true, w1)
    /\ calm w1
    /\ forall d,
         pending w1 d
         = if decide (dest = d)
           then pending w d ++ [Message self tag (payload_of buf count)]
           else pending w d.
Proof.
  intros Hc Hcount. unfold MPI_Ssend, post.
  destruct (calm_outcome w Hc) as [-> Hc'].
  assert (Hle : (0 <=? count) = true) by by apply Z.leb_le.
  rewrite Hle. cbn [andb]. eexists. split; [reflexivity|]. split.
  - unfold record, deliver. cbn. eapply calm_irrelevant, Hc'.
  - intros d. unfold record, deliver. cbn [mailbox script next_request history].
    rewrite pending_insert. destruct (decide (dest = d)); [|by destruct w].
    subst. unfold pending. by destruct w.
Qed.

Lemma mprobe_calm any self source tag w m rest :
  calm w ->
  take_first (matches any source tag) (pending w self) = Some (m, rest) ->
  exists w1,
    MPI_Mprobe any self source tag w = Some (Some m, w1)
    /\ calm w1
    /\ forall d, pending w1 d = if decide (self = d) then rest else pending w d.
Proof.
  intros Hc Hq. unfold MPI_Mprobe.
  destruct (calm_outcome w Hc) as [-> Hc'].
  replace (pending (World (mailbox w) (tail (script w)) (next_request w) (history w)) self)
    with (pending w self) by by destruct w.
  rewrite Hq. eexists. split; [reflexivity|]. split.
  - unfold record, set_pending. cbn. eapply calm_irrelevant, Hc'.
  - intros d. unfold record, set_pending. cbn [mailbox script next_request history].
    rewrite pending_insert. destruct (decide (self = d)); [done|by destruct w].
Qed.

Lemma mprobe_blocks any self source tag w :
  nth_outcome 0 w = true ->
  take_first (matches any source tag) (pending w self) = None ->
  MPI_Mprobe any self source tag w = None.
Proof.
  intros H0 Hq. unfold MPI_Mprobe. rewrite MpiFacts.outcome_spec, H0.
  replace (pending (World (mailbox w) (tail (script w)) (next_request w) (history w)) self)
    with (pending w self) by by destruct w.
  by rewrite Hq.
Qed.

Lemma mrecv_calm self m w :
  calm w ->
  exists w1,
    MPI_Mrecv self (Some m) (Z.of_nat (length (msg_bytes m))) w
    = Some ((true, msg_bytes m), w1)
    /\ calm w1 /\ forall d, pending w1 d = pending w d.
Proof.
  intros Hc. unfold MPI_Mrecv. destruct (calm_outcome w Hc) as [-> Hc'].
  rewrite Z.leb_refl. cbn [andb]. eexists. split; [reflexivity|]. split.
  - unfold record. cbn. eapply calm_irrelevant, Hc'.
  - intros d. by destruct w.
Qed.

End CalmFacts.

(** ** Notifications, sent and received *)

Module NotificationRoundTrip.
Import Wire Mpi Communicator Listeners Notions Scenarios.

Lemma signed_mod w v :
  (0 < w)%nat ->
  - 2 ^ (8 * Z.of_nat w - 1) <= v < 2 ^ (8 * Z.of_nat w - 1) ->
  signed w (v mod 256 ^ Z.of_nat w) = v.
Proof.
  intros Hw Hv. unfold signed.
  assert (H256 : 256 ^ Z.of_nat w = 2 ^ (8 * Z.of_nat w)).
  { rewrite <- (Z.pow_mul_r 2 8) by lia. done. }
  rewrite H256.
  assert (Hhalf : 2 ^ (8 * Z.of_nat w) = 2 * 2 ^ (8 * Z.of_nat w - 1)).
  { rewrite <- Z.pow_succ_r by lia. f_equal. lia. }
  assert (Hq : 0 < 2 ^ (8 * Z.of_nat w - 1)) by (apply Z.pow_pos_nonneg; lia).
  destruct (Z_lt_le_dec v 0) as [Hneg|Hpos].
  - assert (Hm : v mod 2 ^ (8 * Z.of_nat w) = v + 2 ^ (8 * Z.of_nat w)).
    { symmetry. apply (Z.mod_unique _ _ (-1)); lia. }
    rewrite Hm. destruct (Z.ltb_spec (v + 2 ^ (8 * Z.of_nat w))
                                     (2 ^ (8 * Z.of_nat w - 1))); lia.
  - rewrite Z.mod_small by lia.
    destruct (Z.ltb_spec v (2 ^ (8 * Z.of_nat w - 1))); lia.
Qed.

Lemma length_vector_image w (l : list Z) :
  length (vector_image w l) = (length l * w)%nat.
Proof.
  unfold vector_image. induction l as [|v l IH]; [done|].
  cbn. by rewrite length_app, WireFacts.length_encode_le, IH.
Qed.

(** Tensor ids that fit in [w] bytes survive the trip through memory. *)
Lemma vector_round_trip w (l : list Z) :
  (0 < w)%nat ->
  Forall (fun v => - 2 ^ (8 * Z.of_nat w - 1) <= v < 2 ^ (8 * Z.of_nat w - 1)) l ->
  vector_of_image w (length l) (vector_image w l) = l.
Proof.
  intros Hw. induction 1 as [|v l Hv _ IH]; [done|].
  unfold vector_image in *. cbn [map concat length vector_of_image].
  rewrite take_app_length', drop_app_length'
    by (symmetry; apply WireFacts.length_encode_le).
  by rewrite WireFacts.decode_encode_le, signed_mod, IH.
Qed.

Lemma take_first_app_found (p : Mpi.message -> bool) q1 q2 m rest :
  take_first p q1 = Some (m, rest) ->
  take_first p (q1 ++ q2) = Some (m, rest ++ q2).
Proof.
  revert rest. induction q1 as [|x q1 IH]; intros rest; [done|]. simpl.
  destruct (p x); [by intros [= -> <-]|].
  destruct (take_first p q1) as [[y r]|]; [|done].
  intros [= -> <-]. by rewrite (IH r).
Qed.

Lemma notification_send_calm k a dest (tids : list Z) w :
  calm w ->
  Z.of_nat (length tids) * Z.of_nat (sizeof_tid k) <= INT_MAX ->
  exists w1,
    tensors_created_notification k a dest tids w = Some (true, w1)
    /\ calm w1
    /\ forall d,
         pending w1 d
         = if decide (dest = d)
           then pending w d ++ [Message (_rank a) (NOTIFY_TENSOR_TAG k)
                                        (vector_image (sizeof_tid k) tids)]
           else pending w d.
Proof.
  intros Hc Hsize. unfold tensors_created_notification.
  rewrite WireFacts.to_int32_small by (unfold INT_MAX in *; lia).
  destruct (CalmFacts.ssend_calm (_rank a) (vector_image (sizeof_tid k) tids)
              (Z.of_nat (length tids) * Z.of_nat (sizeof_tid k)) dest
              (NOTIFY_TENSOR_TAG k) w Hc) as (w1 & Hrun & Hc1 & Hpend); [lia|].
  exists w1. split; [done|]. split; [done|].
  intros d. rewrite Hpend. unfold payload_of.
  rewrite <- Nat2Z.inj_mul, Nat2Z.id, <- length_vector_image, firstn_all. done.
Qed.

Lemma notification_receive_calm k c w m rest :
  calm w -> notification_probe k c w = Some (m, rest) ->
  exists w',
    receive_tensor_created_notification k c w
    = Some ((msg_source m, received_tids k (msg_bytes m)), w')
    /\ calm w'
    /\ forall d, pending w' d = if decide (_rank c = d) then rest else pending w d.
Proof.
  intros Hc Hq. unfold receive_tensor_created_notification, bind.
  destruct (CalmFacts.mprobe_calm (ANY_NODE k) (_rank c) (ANY_NODE k)
              (NOTIFY_TENSOR_TAG k) w m rest Hc Hq) as (w1 & -> & Hc1 & Hp1).
  unfold MPI_Get_count, status_of. cbn [st_count MPI_SOURCE].
  destruct (CalmFacts.mrecv_calm (_rank c) m w1 Hc1) as (w2 & -> & Hc2 & Hp2).
  cbv zeta. destruct (_ <? _); unfold overrun, ret.
  - eexists. split; [reflexivity|]. split.
    + intros i. specialize (Hc2 i). by destruct w2.
    + intros d. rewrite <- Hp1, <- Hp2. by destruct w2.
  - exists w2. split; [done|]. split; [done|].
    intros d. by rewrite Hp2, Hp1.
Qed.

Lemma received_tids_image k (tids : list Z) :
  (0 < sizeof_tid k)%nat -> Forall (fits_tid k) tids ->
  received_tids k (vector_image (sizeof_tid k) tids) = tids.
Proof.
  intros Hsz Hfit. unfold received_tids. rewrite length_vector_image.
  rewrite Nat2Z.inj_mul, Z.div_mul by lia. rewrite Nat2Z.id.
  by apply vector_round_trip.
Qed.

Lemma quiet_calm : calm (Fixtures.quiet []).
Proof. intros i. by destruct i. Defined.

(** X1: a list of tensor ids that fit in [sizeof(tid_t)] bytes, announced
    with [tensors_created_notification], is received by
    [receive_tensor_created_notification] as the same list, with the
    sender's rank; the empty list included. *)
Theorem notification_round_trip k a b (tids : list Z) w :
  (0 < sizeof_tid k)%nat -> Forall (fits_tid k) tids ->
  Z.of_nat (length tids) * Z.of_nat (sizeof_tid k) <= INT_MAX ->
  calm w -> notification_probe k b w = None ->
  exists w',
    notify_then_receive k a b tids w = Some ((true, (_rank a, tids)), w').
Proof.
  intros Hsz Hfit Hsize Hc Hq. unfold notify_then_receive, bind.
  destruct (notification_send_calm k a (_rank b) tids w Hc Hsize)
    as (w1 & -> & Hc1 & Hp1).
  destruct (notification_receive_calm k b w1
              (Message (_rank a) (NOTIFY_TENSOR_TAG k)
                       (vector_image (sizeof_tid k) tids))
              (pending w (_rank b)) Hc1) as (w2 & -> & _).
  { unfold notification_probe. rewrite Hp1, decide_True by done.
    apply MpiFacts.take_first_app_new; [done|].
    unfold matches. simpl. by rewrite !Z.eqb_refl. }
  exists w2. cbn [msg_source msg_bytes]. by rewrite received_tids_image.
Qed.

Lemma notification_round_trip_witness :
  exists w',
    notify_then_receive Fixtures.k0 Fixtures.node1 Fixtures.node0 [5; -1; 70000]
                        (Fixtures.quiet [])
    = Some ((true, (1, [5; -1; 70000])), w').
Proof.
  apply (notification_round_trip Fixtures.k0 Fixtures.node1 Fixtures.node0
           [5; -1; 70000] (Fixtures.quiet [])).
  - simpl. lia.
  - repeat constructor; unfold fits_tid; simpl; lia.
  - vm_compute. discriminate.
  - exact quiet_calm.
  - reflexivity.
Defined.

(** X2: two notifications from one node to another are received in the
    order they were sent. *)
Theorem notifications_in_order k a b (first second : list Z) w :
  (0 < sizeof_tid k)%nat -> Forall (fits_tid k) first -> Forall (fits_tid k) second ->
  Z.of_nat (length first) * Z.of_nat (sizeof_tid k) <= INT_MAX ->
  Z.of_nat (length second) * Z.of_nat (sizeof_tid k) <= INT_MAX ->
  calm w -> notification_probe k b w = None ->
  exists w',
    notify_twice k a b first second w
    = Some (((_rank a, first), (_rank a, second)), w').
Proof.
  intros Hsz Hf1 Hf2 Hs1 Hs2 Hc Hq. unfold notify_twice, bind.
  destruct (notification_send_calm k a (_rank b) first w Hc Hs1)
    as (w1 & -> & Hc1 & Hp1).
  destruct (notification_send_calm k a (_rank b) second w1 Hc1 Hs2)
    as (w2 & -> & Hc2 & Hp2).
  set (m1 := Message (_rank a) (NOTIFY_TENSOR_TAG k) (vector_image (sizeof_tid k) first)) in *.
  set (m2 := Message (_rank a) (NOTIFY_TENSOR_TAG k) (vector_image (sizeof_tid k) second)) in *.
  assert (Hm : forall bytes,
            matches (ANY_NODE k) (ANY_NODE k) (NOTIFY_TENSOR_TAG k)
                    (Message (_rank a) (NOTIFY_TENSOR_TAG k) bytes) = true).
  { intros bytes. unfold matches. simpl. by rewrite !Z.eqb_refl. }
  destruct (notification_receive_calm k b w2 m1 (pending w (_rank b) ++ [m2]) Hc2)
    as (w3 & -> & Hc3 & Hp3).
  { unfold notification_probe. rewrite Hp2, decide_True, Hp1, decide_True by done.
    apply take_first_app_found, MpiFacts.take_first_app_new; [done|apply Hm]. }
  destruct (notification_receive_calm k b w3 m2 (pending w (_rank b)) Hc3)
    as (w4 & -> & _).
  { unfold notification_probe. rewrite Hp3, decide_True by done.
    apply MpiFacts.take_first_app_new; [done|apply Hm]. }
  exists w4. unfold m1, m2. cbn [msg_source msg_bytes].
  by rewrite !received_tids_image.
Qed.

Lemma notifications_in_order_witness :
  exists w',
    notify_twice Fixtures.k0 Fixtures.node1 Fixtures.node0 [5] [6; 7]
                 (Fixtures.quiet [])
    = Some (((1, [5]), (1, [6; 7])), w').
Proof.
  apply (notifications_in_order Fixtures.k0 Fixtures.node1 Fixtures.node0
           [5] [6; 7] (Fixtures.quiet [])).
  - simpl. lia.
  - repeat constructor; unfold fits_tid; simpl; lia.
  - repeat constructor; unfold fits_tid; simpl; lia.
  - vm_compute. discriminate.
  - vm_compute. discriminate.
  - exact quiet_calm.
  - reflexivity.
Defined.

End NotificationRoundTrip.

(** ** The notification receive: error pairs and the overrun *)

Module NotificationFaultFacts.
Import Wire Mpi Communicator Listeners Notions Scenarios.

Lemma floor_capacity (n sz : nat) :
  Z.of_nat (Z.to_nat (Z.of_nat n / Z.of_nat sz)) * Z.of_nat sz
  = Z.of_nat (n / sz * sz).
Proof. by rewrite <- Nat2Z.inj_div, Nat2Z.id, Nat2Z.inj_mul. Qed.

Lemma ragged_short (n sz : nat) :
  (0 < sz)%nat -> (n mod sz <> 0)%nat ->
  (n / sz * sz < n)%nat /\ (n - n / sz * sz = n mod sz)%nat.
Proof. intros Hsz Hrag. pose proof (Nat.div_mod_eq n sz). lia. Qed.

Lemma probe_failed_log k c w :
  nth_outcome 0 w = false ->
  exists w',
    receive_tensor_created_notification k c w = Some ((-1, []), w')
    /\ history w'
       = history w ++ [EvMprobe (_rank c) (ANY_NODE k) (NOTIFY_TENSOR_TAG k) false].
Proof.
  intros H0. unfold receive_tensor_created_notification, bind, MPI_Mprobe.
  rewrite MpiFacts.outcome_spec, H0. cbn. eauto.
Qed.

(** C8: [receive_tensor_created_notification] answers a failed probe and
    a failed receive with the pair [(-1, {})] and writes nowhere; after a
    successful receive of a notification that is the image of a list of
    tensor ids it returns the sender's rank with that list, and writes
    nowhere but in its vector.  The last part fails on a notification
    whose length is not a multiple of [sizeof(tid_t)]: the receive writes
    past the end of the vector. *)
Theorem receive_notification_error_pair k c w :
  (nth_outcome 0 w = false ->
   exists w',
     receive_tensor_created_notification k c w = Some ((-1, []), w')
     /\ history w'
        = history w ++ [EvMprobe (_rank c) (ANY_NODE k) (NOTIFY_TENSOR_TAG k) false])
  /\ (forall m rest,
        nth_outcome 0 w = true -> notification_probe k c w = Some (m, rest) ->
        (nth_outcome 1 w = false ->
         exists w',
           receive_tensor_created_notification k c w = Some ((-1, []), w')
           /\ history w'
              = history w
                ++ [EvMprobe (_rank c) (ANY_NODE k) (NOTIFY_TENSOR_TAG k) true;
                    EvMrecv (_rank c) false])
        /\ (nth_outcome 1 w = true ->
            forall tids,
              (0 < sizeof_tid k)%nat -> Forall (fits_tid k) tids ->
              msg_bytes m = vector_image (sizeof_tid k) tids ->
              exists w',
                receive_tensor_created_notification k c w
                = Some ((msg_source m, tids), w')
                /\ history w'
                   = history w
                     ++ [EvMprobe (_rank c) (ANY_NODE k) (NOTIFY_TENSOR_TAG k) true;
                         EvMrecv (_rank c) true])
        /\ (nth_outcome 1 w = true ->
            (0 < sizeof_tid k)%nat ->
            (length (msg_bytes m) mod sizeof_tid k <> 0)%nat ->
            exists r w' capacity,
              receive_tensor_created_notification k c w = Some (r, w')
              /\ history w'
                 = history w
                   ++ [EvMprobe (_rank c) (ANY_NODE k) (NOTIFY_TENSOR_TAG k) true;
                       EvMrecv (_rank c) true;
                       EvOverrun (_rank c) capacity
                                 (Z.of_nat (length (msg_bytes m)))]
              /\ capacity < Z.of_nat (length (msg_bytes m)))).
Proof.
  split; [apply probe_failed_log|].
  intros m rest H0 Hq.
  destruct (NotificationFacts.receive_matched k c w m rest H0 Hq)
    as (w' & Hrun & _ & Hlog).
  cbv zeta in Hlog. rewrite floor_capacity in Hlog.
  split; [|split]; intros H1; rewrite H1 in Hrun, Hlog.
  - exists w'. by split.
  - intros tids Hsz Hfit Himg. exists w'. rewrite Himg in Hrun, Hlog.
    rewrite NotificationRoundTrip.received_tids_image in Hrun by done.
    split; [done|]. rewrite Hlog.
    rewrite NotificationRoundTrip.length_vector_image, Nat.div_mul by lia.
    by rewrite Z.ltb_irrefl.
  - intros Hsz Hrag. destruct (ragged_short _ _ Hsz Hrag) as [Hshort _].
    assert (Hlt : (Z.of_nat (length (msg_bytes m) / sizeof_tid k * sizeof_tid k)
                   <? Z.of_nat (length (msg_bytes m))) = true)
      by (apply Z.ltb_lt; lia).
    rewrite Hlt in Hlog. eexists _, w', _. split; [exact Hrun|].
    split; [exact Hlog|]. lia.
Qed.

(** C9, on the code: a notification whose length [n] is not a multiple of
    [sizeof(tid_t)] is received into a vector of
    [n / sizeof(tid_t) * sizeof(tid_t)] bytes with a count of [n]: its last
    [n mod sizeof(tid_t)] bytes are not dropped, they are written past the
    end of the vector. *)
Theorem notification_ragged_overruns k c w m rest :
  nth_outcome 0 w = true -> nth_outcome 1 w = true ->
  notification_probe k c w = Some (m, rest) ->
  (0 < sizeof_tid k)%nat ->
  (length (msg_bytes m) mod sizeof_tid k <> 0)%nat ->
  let n := length (msg_bytes m) in
  let sz := sizeof_tid k in
  exists r w',
    receive_tensor_created_notification k c w = Some (r, w')
    /\ history w'
       = history w
         ++ [EvMprobe (_rank c) (ANY_NODE k) (NOTIFY_TENSOR_TAG k) true;
             EvMrecv (_rank c) true;
             EvOverrun (_rank c) (Z.of_nat (n / sz * sz)) (Z.of_nat n)]
    /\ (n / sz * sz < n)%nat
    /\ (n - n / sz * sz = n mod sz)%nat.
Proof.
  intros H0 H1 Hq Hsz Hrag n sz.
  destruct (NotificationFacts.receive_matched k c w m rest H0 Hq)
    as (w' & Hrun & _ & Hlog).
  cbv zeta in Hlog. rewrite floor_capacity, H1 in Hlog. fold n sz in Hlog.
  destruct (ragged_short n sz Hsz Hrag) as [Hshort Hrest].
  assert (Hlt : (Z.of_nat (n / sz * sz) <? Z.of_nat n) = true)
    by (apply Z.ltb_lt; lia).
  rewrite Hlt in Hlog. eexists _, w'. split; [exact Hrun|]. by split.
Qed.

Lemma notification_ragged_overruns_witness :
  exists r w',
    receive_tensor_created_notification Fixtures.k0 Fixtures.node0 Fixtures.ragged
    = Some (r, w')
    /\ history w' = [EvMprobe 0 (-1) 3 true; EvMrecv 0 true; EvOverrun 0 4 6]
    /\ (4 < 6)%nat
    /\ (6 - 4 = 2)%nat.
Proof.
  apply (notification_ragged_overruns Fixtures.k0 Fixtures.node0 Fixtures.ragged
           (Message 2 3 Fixtures.six_bytes) []);
    [reflexivity | reflexivity | reflexivity | simpl; lia
    | vm_compute; discriminate].
Defined.

End NotificationFaultFacts.

(** ** Commands, sent and received *)

Module CommandChannelFacts.
Import Wire Mpi Communicator Listeners Notions Scenarios.

Lemma isend_each_calm self buf count tag dests requests w :
  calm w -> 0 <= count ->
  exists reqs w',
    isend_each self buf count tag dests requests w = Some (requests ++ reqs, w')
    /\ Forall (fun r => success r = true) reqs
    /\ calm w'
    /\ forall d,
         pending w' d
         = pending w d ++ replicate (occurrences d dests)
                                    (Message self tag (payload_of buf count)).
Proof.
  intros Hc Hcount. revert requests w Hc.
  induction dests as [|x dests IH]; intros requests w Hc.
  - exists [], w. cbn. rewrite app_nil_r. repeat split; [done..|].
    intros d. by rewrite app_nil_r.
  - cbn [isend_each]. unfold bind at 1.
    destruct (CalmFacts.isend_calm self buf count x tag w Hc Hcount)
      as (w1 & -> & Hc1 & _ & Hp1).
    destruct (IH (requests ++ [AsyncRequest (next_request w) true]) w1 Hc1)
      as (reqs & w' & -> & Hall & Hc' & Hp').
    exists (AsyncRequest (next_request w) true :: reqs), w'.
    split; [by rewrite <- app_assoc|]. split; [by constructor|]. split; [done|].
    intros d. rewrite Hp', Hp1. unfold occurrences.
    destruct (decide (x = d)) as [->|Hne].
    + rewrite filter_cons_True by done. cbn. by rewrite <- app_assoc.
    + by rewrite filter_cons_False by done.
Qed.

Lemma wait_each_calm requests so_far w :
  calm w -> Forall (fun r => success r = true) requests ->
  exists w',
    wait_each requests so_far w = Some (so_far, w')
    /\ calm w' /\ forall d, pending w' d = pending w d.
Proof.
  intros Hc Hall. revert so_far w Hc.
  induction Hall as [|r requests Hr _ IH]; intros so_far w Hc.
  - by exists w.
  - cbn [wait_each]. rewrite Hr. unfold bind at 1.
    destruct (CalmFacts.wait_calm (request r) w Hc) as (w1 & -> & Hc1 & Hmb & _).
    destruct (IH (true && so_far) w1 Hc1) as (w' & -> & Hc' & Hp').
    exists w'. split; [done|]. split; [done|].
    intros d. rewrite Hp'. unfold pending. by rewrite Hmb.
Qed.

(** Sending to every destination and waiting, when nothing fails. *)
Lemma send_then_wait_calm self buf count tag dests w :
  calm w -> 0 <= count ->
  exists w',
    bind (isend_each self buf count tag dests []) (fun requests =>
          wait_each requests true) w = Some (true, w')
    /\ calm w'
    /\ forall d,
         pending w' d
         = pending w d ++ replicate (occurrences d dests)
                                    (Message self tag (payload_of buf count)).
Proof.
  intros Hc Hcount. unfold bind.
  destruct (isend_each_calm self buf count tag dests [] w Hc Hcount)
    as (reqs & w1 & -> & Hall & Hc1 & Hp1).
  cbn [app].
  destruct (wait_each_calm reqs true w1 Hc1 Hall) as (w' & -> & Hc' & Hp').
  exists w'. split; [done|]. split; [done|]. intros d. by rewrite Hp', Hp1.
Qed.

Lemma whole_image cmd :
  cmd_num_bytes cmd <= INT_MAX ->
  0 <= to_int32 (cmd_num_bytes cmd)
  /\ payload_of (cmd_image cmd) (to_int32 (cmd_num_bytes cmd)) = cmd_image cmd.
Proof.
  intros Hsize. unfold cmd_num_bytes in *.
  rewrite WireFacts.to_int32_small by lia. split; [lia|].
  unfold payload_of. by rewrite Nat2Z.id, firstn_all.
Qed.

Lemma occurrences_pos d (dests : list Z) :
  d ∈ dests -> exists n, occurrences d dests = S n.
Proof.
  intros Hin. unfold occurrences.
  assert (Hd : d ∈ filter (fun x => x = d) dests) by by apply list_elem_of_filter.
  destruct (filter (fun x => x = d) dests) as [|y l]; [|by exists (length l)].
  by apply not_elem_of_nil in Hd.
Qed.

(** The listener finds a message put behind a queue with nothing for it,
    whatever comes after. *)
Lemma take_first_behind (p : Mpi.message -> bool) q m later :
  take_first p q = None -> p m = true ->
  take_first p (q ++ m :: later) = Some (m, q ++ later).
Proof.
  intros Hq Hm. change (m :: later) with ([m] ++ later). rewrite app_assoc.
  by apply NotificationRoundTrip.take_first_app_found, MpiFacts.take_first_app_new.
Qed.

Lemma take_first_none_app (p : Mpi.message -> bool) q1 q2 :
  take_first p q1 = None -> take_first p q2 = None ->
  take_first p (q1 ++ q2) = None.
Proof.
  rewrite !MpiFacts.take_first_None. intros H1 H2. by apply Forall_app.
Qed.

Lemma expect_on_calm k c tag w m rest :
  calm w -> command_probe k c tag w = Some (m, rest) ->
  exists w',
    expect_on k c tag w = Some (Some (msg_bytes m), w')
    /\ calm w'
    /\ forall d, pending w' d = if decide (_rank c = d) then rest else pending w d.
Proof.
  intros Hc Hq. unfold expect_on, bind.
  destruct (CalmFacts.mprobe_calm (ANY_NODE k) (_rank c) (ANY_NODE k) tag w m rest Hc Hq)
    as (w1 & -> & Hc1 & Hp1).
  unfold MPI_Get_count, status_of. cbn [st_count].
  destruct (CalmFacts.mrecv_calm (_rank c) m w1 Hc1) as (w2 & -> & Hc2 & Hp2).
  exists w2. rewrite Nat2Z.id, SyncFacts.overwrite_exact.
  split; [done|]. split; [done|]. intros d. by rewrite Hp2, Hp1.
Qed.

Lemma expect_on_blocks k c tag w :
  nth_outcome 0 w = true -> command_probe k c tag w = None ->
  expect_on k c tag w = None.
Proof.
  intros H0 Hq. unfold expect_on, bind.
  by rewrite (CalmFacts.mprobe_blocks _ _ _ _ _ H0 Hq).
Qed.

Lemma command_matches k src tag bytes :
  matches (ANY_NODE k) (ANY_NODE k) tag (Message src tag bytes) = true.
Proof. unfold matches. simpl. by rewrite !Z.eqb_refl. Qed.

Lemma other_tag_no_match k src tag tag' bytes :
  tag <> tag' ->
  matches (ANY_NODE k) (ANY_NODE k) tag' (Message src tag bytes) = false.
Proof.
  intros Hne. unfold matches. simpl.
  destruct (Z.eqb_spec tag tag'); [done|]. apply andb_false_r.
Qed.

(** X3: [op_request] sends once per entry of [get_nodes()] that is not the
    caller, in the order of the list: it does not look for duplicates, a
    node listed twice is sent the command twice. *)
Theorem op_request_in_list_order k c cmd w :
  exists ok new w',
    op_request k c cmd w = Some (ok, w')
    /\ history w' = history w ++ new
    /\ sends_of new
       = (fun d => (d, SEND_CMD_TAG k))
           <$> filter (fun n => n <> _rank c) (get_nodes cmd).
Proof.
  unfold op_request.
  destruct (DispatchFacts.send_then_wait (_rank c) (cmd_image cmd)
              (to_int32 (cmd_num_bytes cmd)) (SEND_CMD_TAG k)
              (op_request_targets c cmd) w)
    as (ok & new & w' & Hrun & Hh & Hsends & _).
  exists ok, new, w'. split; [done|]. split; [done|].
  by rewrite Hsends, DispatchFacts.op_request_targets_filter.
Qed.

Example twice_cmd_sent_twice :
  (fun r => sends_of (history (snd r)))
    <$> op_request Fixtures.k0 Fixtures.node0 MoreFixtures.twice_cmd (Fixtures.quiet [])
  = Some [(1, 1); (1, 1)].
Proof. reflexivity. Qed.

(** X4: a command of at most [INT_MAX] bytes sent with [op_request] is
    returned, byte for byte, by [expect_op_request] on every other node
    that [get_nodes()] lists. *)
Theorem dispatch_round_trip k a b cmd w :
  cmd_num_bytes cmd <= INT_MAX ->
  _rank b ∈ get_nodes cmd -> _rank b <> _rank a ->
  calm w -> command_probe k b (SEND_CMD_TAG k) w = None ->
  exists w',
    dispatch_then_expect k a b cmd w = Some ((true, Some (cmd_image cmd)), w').
Proof.
  intros Hsize Hin Hne Hc Hq. destruct (whole_image cmd Hsize) as [Hcount Hpay].
  unfold dispatch_then_expect, op_request.
  destruct (send_then_wait_calm (_rank a) (cmd_image cmd)
              (to_int32 (cmd_num_bytes cmd)) (SEND_CMD_TAG k)
              (op_request_targets a cmd) w Hc Hcount) as (w1 & Hrun & Hc1 & Hp1).
  unfold bind in *. rewrite Hrun. rewrite Hpay in Hp1.
  destruct (occurrences_pos (_rank b) (op_request_targets a cmd)) as [n Hn].
  { by apply DispatchFacts.op_request_targets_spec. }
  unfold expect_op_request.
  destruct (expect_on_calm k b (SEND_CMD_TAG k) w1
              (Message (_rank a) (SEND_CMD_TAG k) (cmd_image cmd))
              (pending w (_rank b)
               ++ replicate n (Message (_rank a) (SEND_CMD_TAG k) (cmd_image cmd)))
              Hc1) as (w2 & -> & _).
  { unfold command_probe. rewrite Hp1, Hn. cbn [replicate].
    apply take_first_behind; [done|apply command_matches]. }
  by exists w2.
Qed.

Lemma dispatch_round_trip_witness :
  exists w',
    dispatch_then_expect Fixtures.k0 Fixtures.node0 Fixtures.node1 Fixtures.cmd0
                         (Fixtures.quiet [])
    = Some ((true, Some [x2a; x00]), w').
Proof.
  apply (dispatch_round_trip Fixtures.k0 Fixtures.node0 Fixtures.node1
           Fixtures.cmd0 (Fixtures.quiet [])).
  - vm_compute. discriminate.
  - simpl. apply (bool_decide_unpack _). vm_compute. reflexivity.
  - simpl. lia.
  - exact NotificationRoundTrip.quiet_calm.
  - reflexivity.
Defined.

(** X5: a command of at most [INT_MAX] bytes sent with [forward_cmd] is
    returned, byte for byte, by [expect_cmd] on every other node that owns
    one of its tensors. *)
Theorem forward_round_trip k a b cmd w :
  cmd_num_bytes cmd <= INT_MAX ->
  _rank b ∈ owners cmd -> _rank b <> _rank a ->
  calm w -> command_probe k b (FORWARD_CMD_TAG k) w = None ->
  exists w',
    forward_then_expect k a b cmd w = Some ((true, Some (cmd_image cmd)), w').
Proof.
  intros Hsize Hin Hne Hc Hq. destruct (whole_image cmd Hsize) as [Hcount Hpay].
  unfold forward_then_expect, forward_cmd.
  destruct (send_then_wait_calm (_rank a) (cmd_image cmd)
              (to_int32 (cmd_num_bytes cmd)) (FORWARD_CMD_TAG k)
              (forward_cmd_targets a cmd) w Hc Hcount) as (w1 & Hrun & Hc1 & Hp1).
  unfold bind in *. rewrite Hrun. rewrite Hpay in Hp1.
  destruct (occurrences_pos (_rank b) (forward_cmd_targets a cmd)) as [n Hn].
  { by apply DispatchFacts.forward_cmd_targets_spec. }
  unfold expect_cmd.
  destruct (expect_on_calm k b (FORWARD_CMD_TAG k) w1
              (Message (_rank a) (FORWARD_CMD_TAG k) (cmd_image cmd))
              (pending w (_rank b)
               ++ replicate n (Message (_rank a) (FORWARD_CMD_TAG k) (cmd_image cmd)))
              Hc1) as (w2 & -> & _).
  { unfold command_probe. rewrite Hp1, Hn. cbn [replicate].
    apply take_first_behind; [done|apply command_matches]. }
  by exists w2.
Qed.

Lemma forward_round_trip_witness :
  exists w',
    forward_then_expect Fixtures.k0 Fixtures.node0
                        {| _rank := 2; _num_nodes := 3 |} Fixtures.cmd0
                        (Fixtures.quiet [])
    = Some ((true, Some [x2a; x00]), w').
Proof.
  apply (forward_round_trip Fixtures.k0 Fixtures.node0
           {| _rank := 2; _num_nodes := 3 |} Fixtures.cmd0 (Fixtures.quiet [])).
  - vm_compute. discriminate.
  - simpl. apply (bool_decide_unpack _). vm_compute. reflexivity.
  - simpl. lia.
  - exact NotificationRoundTrip.quiet_calm.
  - reflexivity.
Defined.

Lemma replicate_no_match (p : Mpi.message -> bool) n m :
  p m = false -> take_first p (replicate n m) = None.
Proof.
  intros Hm. apply MpiFacts.take_first_None. by apply Forall_replicate.
Qed.

(** X6: the two command channels do not mix: a command sent with
    [forward_cmd] is not handed out by [expect_op_request], which stays
    blocked, and one sent with [op_request] is not handed out by
    [expect_cmd], provided the two tags differ. *)
Theorem command_channels_apart k a b cmd w :
  SEND_CMD_TAG k <> FORWARD_CMD_TAG k ->
  cmd_num_bytes cmd <= INT_MAX -> calm w ->
  command_probe k b (SEND_CMD_TAG k) w = None ->
  command_probe k b (FORWARD_CMD_TAG k) w = None ->
  (exists w1, forward_cmd k a cmd w = Some (true, w1)
              /\ expect_op_request k b w1 = None)
  /\ (exists w1, op_request k a cmd w = Some (true, w1)
                 /\ expect_cmd k b w1 = None).
Proof.
  intros Htags Hsize Hc Hqs Hqf. destruct (whole_image cmd Hsize) as [Hcount _].
  split.
  - unfold forward_cmd.
    destruct (send_then_wait_calm (_rank a) (cmd_image cmd)
                (to_int32 (cmd_num_bytes cmd)) (FORWARD_CMD_TAG k)
                (forward_cmd_targets a cmd) w Hc Hcount) as (w1 & Hrun & Hc1 & Hp1).
    exists w1. split; [done|]. apply expect_on_blocks; [apply Hc1|].
    unfold command_probe. rewrite Hp1.
    apply take_first_none_app; [done|]. apply replicate_no_match.
    apply other_tag_no_match. congruence.
  - unfold op_request.
    destruct (send_then_wait_calm (_rank a) (cmd_image cmd)
                (to_int32 (cmd_num_bytes cmd)) (SEND_CMD_TAG k)
                (op_request_targets a cmd) w Hc Hcount) as (w1 & Hrun & Hc1 & Hp1).
    exists w1. split; [done|]. apply expect_on_blocks; [apply Hc1|].
    unfold command_probe. rewrite Hp1.
    apply take_first_none_app; [done|]. apply replicate_no_match.
    by apply other_tag_no_match.
Qed.

Lemma command_channels_apart_witness :
  (exists w1, forward_cmd Fixtures.k0 Fixtures.node0 Fixtures.cmd0 (Fixtures.quiet [])
              = Some (true, w1)
              /\ expect_op_request Fixtures.k0 Fixtures.node1 w1 = None)
  /\ (exists w1, op_request Fixtures.k0 Fixtures.node0 Fixtures.cmd0 (Fixtures.quiet [])
                 = Some (true, w1)
                 /\ expect_cmd Fixtures.k0 Fixtures.node1 w1 = None).
Proof.
  apply (command_channels_apart Fixtures.k0 Fixtures.node0 Fixtures.node1
           Fixtures.cmd0 (Fixtures.quiet [])).
  - simpl. lia.
  - vm_compute. discriminate.
  - exact NotificationRoundTrip.quiet_calm.
  - reflexivity.
  - reflexivity.
Defined.

(** X7: [shutdown_op_request] puts the shutdown command on the caller's
    own dispatch queue: a dispatch listener of the same node with nothing
    else to receive comes back with that command, byte for byte. *)
Theorem shutdown_command_wakes_listener k create_shutdown c w :
  cmd_num_bytes (create_shutdown (_rank c)) <= INT_MAX ->
  calm w -> command_probe k c (SEND_CMD_TAG k) w = None ->
  expect_op_request k c w = None
  /\ exists w',
       shutdown_then_expect k create_shutdown c w
       = Some ((true, Some (cmd_image (create_shutdown (_rank c)))), w').
Proof.
  intros Hsize Hc Hq. split; [by apply expect_on_blocks|].
  destruct (whole_image _ Hsize) as [Hcount Hpay].
  unfold shutdown_then_expect, shutdown_op_request, get_rank. unfold bind at 1 2.
  destruct (CalmFacts.isend_calm (_rank c) (cmd_image (create_shutdown (_rank c)))
              (to_int32 (cmd_num_bytes (create_shutdown (_rank c)))) (_rank c)
              (SEND_CMD_TAG k) w Hc Hcount) as (w1 & -> & Hc1 & _ & Hp1).
  destruct (CalmFacts.wait_calm (next_request w) w1 Hc1) as (w2 & -> & Hc2 & Hmb & _).
  unfold bind, expect_op_request.
  destruct (expect_on_calm k c (SEND_CMD_TAG k) w2
              (Message (_rank c) (SEND_CMD_TAG k)
                       (cmd_image (create_shutdown (_rank c))))
              (pending w (_rank c)) Hc2) as (w3 & -> & _).
  { unfold command_probe, pending. rewrite Hmb. fold (pending w1 (_rank c)).
    rewrite Hp1, decide_True, Hpay by done.
    apply MpiFacts.take_first_app_new; [done|apply command_matches]. }
  by exists w3.
Qed.

Lemma shutdown_command_wakes_listener_witness :
  expect_op_request Fixtures.k0 Fixtures.node0 (Fixtures.quiet []) = None
  /\ exists w',
       shutdown_then_expect Fixtures.k0 MoreFixtures.shutdown_cmd Fixtures.node0
                            (Fixtures.quiet [])
       = Some ((true, Some [xff; x00]), w').
Proof.
  apply (shutdown_command_wakes_listener Fixtures.k0 MoreFixtures.shutdown_cmd
           Fixtures.node0 (Fixtures.quiet [])).
  - vm_compute. discriminate.
  - exact NotificationRoundTrip.quiet_calm.
  - reflexivity.
Defined.

(** X8: when the initiation of its send fails, [shutdown_op_request]
    returns [false] after that one transport call: it does not wait, and
    no queue changes. *)
Theorem shutdown_failed_initiation k create_shutdown c w :
  nth_outcome 0 w = false ->
  exists w' payload,
    shutdown_op_request k create_shutdown c w = Some (false, w')
    /\ history w'
       = history w ++ [EvIsend (next_request w) (_rank c) (_rank c)
                               (SEND_CMD_TAG k) payload false]
    /\ mailbox w' = mailbox w.
Proof.
  intros H0. unfold shutdown_op_request, bind, MPI_Isend, new_request, post, get_rank.
  rewrite MpiFacts.outcome_spec.
  replace (nth_outcome 0 _) with (nth_outcome 0 w) by by destruct w.
  rewrite H0. cbn. eexists _, _. split; [reflexivity|]. by split.
Qed.

Lemma shutdown_failed_initiation_witness :
  exists w' payload,
    shutdown_op_request Fixtures.k0 MoreFixtures.shutdown_cmd Fixtures.node0
                        (Fixtures.quiet [false])
    = Some (false, w')
    /\ history w' = [EvIsend 0 0 0 1 payload false]
    /\ mailbox w' = ∅.
Proof.
  apply (shutdown_failed_initiation Fixtures.k0 MoreFixtures.shutdown_cmd
           Fixtures.node0 (Fixtures.quiet [false])).
  reflexivity.
Defined.

(** X9: [expect_op_request] and [expect_cmd] answer a failed probe with
    [nullptr], every queue left as it was, and a failed receive of the
    probed command with [nullptr] as well. *)
Theorem expect_command_errors k c w :
  (nth_outcome 0 w = false ->
   (exists w', expect_op_request k c w = Some (None, w')
               /\ mailbox w' = mailbox w)
   /\ (exists w', expect_cmd k c w = Some (None, w')
                  /\ mailbox w' = mailbox w))
  /\ (nth_outcome 0 w = true -> nth_outcome 1 w = false ->
      (forall m rest,
         command_probe k c (SEND_CMD_TAG k) w = Some (m, rest) ->
         exists w', expect_op_request k c w = Some (None, w'))
      /\ (forall m rest,
            command_probe k c (FORWARD_CMD_TAG k) w = Some (m, rest) ->
            exists w', expect_cmd k c w = Some (None, w'))).
Proof.
  assert (Hfail : forall tag,
            nth_outcome 0 w = false ->
            exists w', expect_on k c tag w = Some (None, w')
                       /\ mailbox w' = mailbox w).
  { intros tag H0. unfold expect_on, bind, MPI_Mprobe.
    rewrite MpiFacts.outcome_spec, H0. cbn. eauto. }
  assert (Hrecv : forall tag m rest,
            nth_outcome 0 w = true -> nth_outcome 1 w = false ->
            command_probe k c tag w = Some (m, rest) ->
            exists w', expect_on k c tag w = Some (None, w')).
  { intros tag m rest H0 H1 Hq. unfold expect_on, bind, MPI_Mprobe.
    rewrite MpiFacts.outcome_spec, H0. unfold command_probe, pending in Hq.
    unfold pending. cbn [mailbox]. rewrite Hq.
    unfold MPI_Mrecv. rewrite MpiFacts.outcome_spec.
    replace (nth_outcome 0 _) with (nth_outcome 1 w)
      by (unfold nth_outcome; simpl; by destruct (script w)).
    rewrite H1. cbn. eauto. }
  split.
  - intros H0. split; apply Hfail, H0.
  - intros H0 H1. split; intros m rest; apply Hrecv; assumption.
Qed.

End CommandChannelFacts.

(** ** Application tags *)

Module TagFacts.
Import Wire Mpi Communicator Listeners Notions Scenarios.

Lemma to_int32_inj x y :
  to_int32 x = to_int32 y -> - 2 ^ 32 < x - y < 2 ^ 32 -> x = y.
Proof.
  unfold to_int32. intros Heq Hclose.
  pose proof (Z.div_mod (x + 2 ^ 31) (2 ^ 32)) as Hx.
  pose proof (Z.div_mod (y + 2 ^ 31) (2 ^ 32)) as Hy.
  assert (Hm : (x + 2 ^ 31) mod 2 ^ 32 = (y + 2 ^ 31) mod 2 ^ 32) by lia.
  lia.
Qed.

Lemma wire_tag_inj k T1 T2 :
  - 2 ^ 31 <= T1 <= INT_MAX -> - 2 ^ 31 <= T2 <= INT_MAX ->
  wire_tag k T1 = wire_tag k T2 -> T1 = T2.
Proof.
  unfold wire_tag, INT_MAX. intros H1 H2 Heq.
  apply to_int32_inj in Heq; lia.
Qed.

(** X10: the shift by [FREE_TAG] keeps application tags apart: two
    different [int] tags never share a wire tag, whatever [FREE_TAG] is. *)
Theorem wire_tag_injective k T1 T2 :
  - 2 ^ 31 <= T1 <= INT_MAX -> - 2 ^ 31 <= T2 <= INT_MAX ->
  T1 <> T2 -> wire_tag k T1 <> wire_tag k T2.
Proof. intros H1 H2 Hne Heq. by apply Hne, (wire_tag_inj k). Qed.

Lemma wire_tag_injective_witness :
  wire_tag Fixtures.k0 (-4) <> wire_tag Fixtures.k0 2147483647.
Proof.
  apply (wire_tag_injective Fixtures.k0 (-4) 2147483647);
    [vm_compute; split; discriminate | vm_compute; split; discriminate | lia].
Defined.

Lemma wire_tag_moves k T :
  0 < FREE_TAG k <= INT_MAX -> - 2 ^ 31 <= T <= INT_MAX -> wire_tag k T <> T.
Proof.
  unfold wire_tag, INT_MAX. intros Hf HT Heq.
  rewrite <- (WireFacts.to_int32_small T) in Heq at 2 by (unfold INT_MAX; lia).
  apply to_int32_inj in Heq; lia.
Qed.

Lemma send_sync_calm k a dest (P : list byte) T w :
  Z.of_nat (length P) <= INT_MAX -> calm w ->
  exists w1,
    send_sync k a P (Z.of_nat (length P)) dest T w = Some (true, w1)
    /\ calm w1
    /\ forall d,
         pending w1 d
         = if decide (dest = d)
           then pending w d ++ [Message (_rank a) (wire_tag k T) P]
           else pending w d.
Proof.
  intros Hlen Hc. unfold send_sync.
  rewrite WireFacts.to_int32_small by (unfold INT_MAX in *; lia).
  destruct (CalmFacts.ssend_calm (_rank a) P (Z.of_nat (length P)) dest
              (wire_tag k T) w Hc) as (w1 & -> & Hc1 & Hp1); [lia|].
  exists w1. split; [done|]. split; [done|]. intros d. rewrite Hp1.
  unfold payload_of. by rewrite Nat2Z.id, firstn_all.
Qed.

(** X11: the [message_tag] that [expect_request_sync] reports is the tag
    on the wire, [T + FREE_TAG], not the tag [T] the sender and the
    receiver passed; with a [FREE_TAG] in [1 .. INT_MAX] the two differ. *)
Theorem probe_reports_wire_tag k a b (P : list byte) T w :
  0 < FREE_TAG k <= INT_MAX -> - 2 ^ 31 <= T <= INT_MAX ->
  Z.of_nat (length P) <= INT_MAX -> calm w ->
  take_first (matches (ANY_NODE k) (_rank a) (wire_tag k T)) (pending w (_rank b))
  = None ->
  exists req w',
    send_then_expect k a b P T T w = Some ((true, req), w')
    /\ message_tag req = wire_tag k T
    /\ message_tag req <> T
    /\ MPI_SOURCE (status req) = _rank a.
Proof.
  intros Hf HT Hlen Hc Hq. unfold send_then_expect, bind.
  destruct (send_sync_calm k a (_rank b) P T w Hlen Hc) as (w1 & -> & Hc1 & Hp1).
  destruct (SyncFacts.expect_request_run k b (_rank a) T w1
              (Message (_rank a) (wire_tag k T) P) (pending w (_rank b)))
    as (w2 & -> & _).
  { apply Hc1. }
  { rewrite Hp1, decide_True by done.
    apply MpiFacts.take_first_app_new; [done|].
    unfold matches. simpl. by rewrite !Z.eqb_refl, orb_true_r. }
  eexists _, w2. split; [reflexivity|]. cbn. split; [done|]. split; [|done].
  by apply wire_tag_moves.
Qed.

Lemma probe_reports_wire_tag_witness :
  exists req w',
    send_then_expect Fixtures.k0 Fixtures.node0 Fixtures.node1 [x01; x02] 7 7
                     (Fixtures.quiet [])
    = Some ((true, req), w')
    /\ message_tag req = 12
    /\ message_tag req <> 7
    /\ MPI_SOURCE (status req) = 0.
Proof.
  apply (probe_reports_wire_tag Fixtures.k0 Fixtures.node0 Fixtures.node1
           [x01; x02] 7 (Fixtures.quiet [])).
  - vm_compute. split; [reflexivity|discriminate].
  - vm_compute. split; discriminate.
  - vm_compute. discriminate.
  - exact NotificationRoundTrip.quiet_calm.
  - reflexivity.
Defined.

(** X12: a message that is on the wire under the application tag [T] is
    not matched by [expect_request_sync] under another tag [T'] (both wire
    tags being valid, non-negative tags): that probe stays blocked, while
    the probe under [T] takes the message and reports its length. *)
Theorem other_tag_stays_pending k a b (P : list byte) T T' w :
  - 2 ^ 31 <= T <= INT_MAX -> - 2 ^ 31 <= T' <= INT_MAX -> T <> T' ->
  0 <= wire_tag k T -> 0 <= wire_tag k T' ->
  nth_outcome 0 w = true ->
  pending w (_rank b) = [Message (_rank a) (wire_tag k T) P] ->
  expect_request_sync k b (_rank a) T' w = None
  /\ exists req w',
       expect_request_sync k b (_rank a) T w = Some (req, w')
       /\ num_bytes req = Z.of_nat (length P)
       /\ pending w' (_rank b) = [].
Proof.
  intros HT HT' Hne _ _ H0 Hpend.
  assert (Hsame : pending (World (mailbox w) (tail (script w)) (next_request w)
                                 (history w)) (_rank b)
                  = pending w (_rank b)) by by destruct w.
  split.
  - unfold expect_request_sync, bind.
    rewrite (CalmFacts.mprobe_blocks (ANY_NODE k) (_rank b) (_rank a)
               (wire_tag k T') w H0); [done|].
    rewrite Hpend. simpl. unfold matches. simpl.
    destruct (Z.eqb_spec (wire_tag k T) (wire_tag k T')) as [Heq|_];
      [|by rewrite andb_false_r].
    apply wire_tag_inj in Heq; done.
  - unfold expect_request_sync, bind, MPI_Mprobe.
    rewrite MpiFacts.outcome_spec, H0, Hsame, Hpend. simpl.
    unfold matches. simpl. rewrite !Z.eqb_refl, orb_true_r. simpl.
    eexists _, _. split; [reflexivity|]. split; [done|].
    unfold pending. cbn. by rewrite lookup_insert_eq.
Qed.

Lemma other_tag_stays_pending_witness :
  expect_request_sync Fixtures.k0 Fixtures.node1 0 8 MoreFixtures.tagged = None
  /\ exists req w',
       expect_request_sync Fixtures.k0 Fixtures.node1 0 7 MoreFixtures.tagged
       = Some (req, w')
       /\ num_bytes req = 2
       /\ pending w' 1 = [].
Proof.
  apply (other_tag_stays_pending Fixtures.k0 Fixtures.node0 Fixtures.node1
           [x01; x02] 7 8 MoreFixtures.tagged).
  - vm_compute. split; discriminate.
  - vm_compute. split; discriminate.
  - lia.
  - vm_compute. discriminate.
  - vm_compute. discriminate.
  - reflexivity.
  - reflexivity.
Defined.

Lemma recv_calm any self count source tag w m rest :
  calm w -> Z.of_nat (length (msg_bytes m)) <= count ->
  take_first (matches any source tag) (pending w self) = Some (m, rest) ->
  exists w1,
    MPI_Recv any self count source tag w = Some ((true, msg_bytes m), w1)
    /\ calm w1.
Proof.
  intros Hc Hfit Hq. unfold MPI_Recv.
  destruct (CalmFacts.calm_outcome w Hc) as [-> Hc'].
  replace (pending (World (mailbox w) (tail (script w)) (next_request w) (history w)) self)
    with (pending w self) by by destruct w.
  rewrite Hq. assert (Hle : (Z.of_nat (length (msg_bytes m)) <=? count) = true)
    by by apply Z.leb_le.
  rewrite Hle. eexists. split; [reflexivity|].
  unfold record, set_pending. cbn. eapply CalmFacts.calm_irrelevant, Hc'.
Qed.

(** X13: a payload sent with [send_async] and received with [recv_sync]
    into a buffer at least as long lands at the start of the buffer, the
    rest of the buffer is kept, and [wait_async] on the handle succeeds. *)
Theorem async_round_trip_prefix k a b (P buf : list byte) T w :
  (length P <= length buf)%nat -> Z.of_nat (length buf) <= INT_MAX ->
  calm w ->
  take_first (matches (ANY_NODE k) (_rank a) (wire_tag k T)) (pending w (_rank b))
  = None ->
  exists handle w',
    async_round_trip k a b P buf T w
    = Some ((handle, (true, P ++ drop (length P) buf), true), w')
    /\ success handle = true.
Proof.
  intros Hfit Hmax Hc Hq. unfold async_round_trip, send_async, recv_sync, wait_async.
  unfold bind at 1 2.
  rewrite !WireFacts.to_int32_small by (unfold INT_MAX in *; lia).
  destruct (CalmFacts.isend_calm (_rank a) P (Z.of_nat (length P)) (_rank b)
              (wire_tag k T) w Hc) as (w1 & -> & Hc1 & _ & Hp1); [lia|].
  unfold ret at 1. unfold bind at 1 2.
  assert (Hpay : payload_of P (Z.of_nat (length P)) = P).
  { unfold payload_of. by rewrite Nat2Z.id, firstn_all. }
  rewrite Hpay in Hp1.
  destruct (recv_calm (ANY_NODE k) (_rank b) (Z.of_nat (length buf)) (_rank a)
              (wire_tag k T) w1 (Message (_rank a) (wire_tag k T) P)
              (pending w (_rank b)) Hc1) as (w2 & -> & Hc2).
  { simpl. lia. }
  { rewrite Hp1, decide_True by done.
    apply MpiFacts.take_first_app_new; [done|].
    unfold matches. simpl. by rewrite !Z.eqb_refl, orb_true_r. }
  unfold ret at 1. unfold bind. cbn [request].
  destruct (CalmFacts.wait_calm (next_request w) w2 Hc2) as (w3 & -> & _).
  eexists _, w3. split; [reflexivity|done].
Qed.

Lemma async_round_trip_prefix_witness :
  exists handle w',
    async_round_trip Fixtures.k0 Fixtures.node0 Fixtures.node1
                     [x01; x02] [xaa; xbb; xcc] 7 (Fixtures.quiet [])
    = Some ((handle, (true, [x01; x02; xcc]), true), w')
    /\ success handle = true.
Proof.
  apply (async_round_trip_prefix Fixtures.k0 Fixtures.node0 Fixtures.node1
           [x01; x02] [xaa; xbb; xcc] 7 (Fixtures.quiet [])).
  - simpl. lia.
  - vm_compute. discriminate.
  - exact NotificationRoundTrip.quiet_calm.
  - reflexivity.
Defined.

End TagFacts.

(** ** More on the partial reduce operator *)

Module OperatorMoreFacts.
Import Storage PartialReduce Notions Scenarios.

(** X14: whatever the inputs and the store, an [apply] that does not
    commit leaves the out-parameter and the tensors of the store as they
    were: [_out_tid] is assigned in the second body only. *)
Theorem apply_not_committed_no_trace grants factory reduce_op op st r op' st' :
  apply grants factory reduce_op op st = (r, op', st') ->
  r <> Committed ->
  _out_tid op' = _out_tid op /\ tensors st' = tensors st.
Proof.
  destruct (tensors st !! _lhs op) as [tl|] eqn:Hl;
    [destruct (tensors st !! _rhs op) as [tr|] eqn:Hr;
     [destruct (grants (tensors st) []) eqn:Hg|]|].
  - rewrite (OperatorFacts.apply_run grants factory reduce_op op st tl tr Hl Hr Hg).
    cbv zeta.
    match goal with |- context [if ?g then _ else _] => destruct g end;
      intros [= <- <- <-] Hne; done.
  - unfold apply, local_transaction, lookup_all. cbn [mapM]. rewrite Hl, Hr. cbn.
    rewrite Hg. intros [= <- <- <-] _. done.
  - unfold apply, local_transaction, lookup_all. cbn [mapM]. rewrite Hl, Hr. cbn.
    intros [= <- <- <-] _. done.
  - unfold apply, local_transaction, lookup_all. cbn [mapM]. rewrite Hl. cbn.
    intros [= <- <- <-] _. done.
Qed.

Lemma apply_not_committed_no_trace_witness :
  _out_tid (snd (fst (apply Fixtures.full Fixtures.factory0 Fixtures.sum0
                            Fixtures.op0 Fixtures.store0)))
  = TID_NONE
  /\ tensors (snd (apply Fixtures.full Fixtures.factory0 Fixtures.sum0
                         Fixtures.op0 Fixtures.store0))
     = tensors Fixtures.store0.
Proof.
  apply (apply_not_committed_no_trace Fixtures.full Fixtures.factory0 Fixtures.sum0
           Fixtures.op0 Fixtures.store0 ReservationDenied);
    [reflexivity|discriminate].
Defined.

(** X15: the format id the constructor keeps in [_id] is the one [apply]
    writes into the output meta data: both are the registry's id of the
    kernel's first output type. *)
Theorem output_format_is_id grants factory reduce_op lhs rhs out_tid params meta0 st l r :
  tensors st !! lhs = Some l -> tensors st !! rhs = Some r ->
  grants (tensors st) [] = true ->
  let op := make factory lhs rhs out_tid params meta0 reduce_op in
  let op' := snd (fst (apply grants factory reduce_op op st)) in
  fmt_id (_out_meta op') = _id op' /\ _id op' = _id op.
Proof.
  intros Hl Hr Hg op op'. subst op'.
  rewrite (OperatorFacts.apply_run grants factory reduce_op op st l r Hl Hr Hg).
  cbv zeta.
  by match goal with |- context [if ?g then _ else _] => destruct g end.
Qed.

Lemma output_format_is_id_witness :
  fmt_id (_out_meta (snd (fst (apply Fixtures.roomy Fixtures.factory0 Fixtures.sum0
                                     Fixtures.op0 Fixtures.store0))))
  = 7
  /\ _id (snd (fst (apply Fixtures.roomy Fixtures.factory0 Fixtures.sum0
                          Fixtures.op0 Fixtures.store0)))
     = 7.
Proof.
  destruct (output_format_is_id Fixtures.roomy Fixtures.factory0 Fixtures.sum0
              1 2 TID_NONE [] (TensorMeta 0 []) Fixtures.store0
              (Fixtures.vec [1; 2]) (Fixtures.vec [10; 20]) eq_refl eq_refl eq_refl)
    as [H1 H2].
  split; [exact H1|reflexivity].
Defined.

(** X16: running the operator again does not touch the first output:
    with a store that grants every reservation, two runs create two
    tensors under two different ids, both in the store afterwards along
    with the inputs. *)
Theorem apply_twice_two_outputs grants factory reduce_op op st l r :
  (forall ts creates, grants ts creates = true) ->
  tensors st !! _lhs op = Some l -> tensors st !! _rhs op = Some r ->
  exists id1 id2 st2 out1,
    apply_twice grants factory reduce_op op st
    = ((Committed, id1), (Committed, id2), st2)
    /\ id1 <> id2
    /\ tensors st !! id1 = None /\ tensors st !! id2 = None
    /\ tensors st2 !! id1 = Some out1
    /\ out1 = call_ud reduce_op (_params op) l r
                      (init_tensor factory
                         (empty_slot (get_tensor_size factory
                                        (phase1_meta factory reduce_op op l r)))
                         (phase1_meta factory reduce_op op l r))
    /\ is_Some (tensors st2 !! id2)
    /\ tensors st2 !! _lhs op = Some l /\ tensors st2 !! _rhs op = Some r.
Proof.
  intros Hg Hl Hr. unfold apply_twice.
  rewrite (OperatorFacts.apply_run grants factory reduce_op op st l r Hl Hr (Hg _ _)).
  cbv zeta. rewrite Hg.
  set (id1 := fresh_tid (dom (tensors st))).
  set (out1 := call_ud reduce_op (_params op) l r _).
  set (op1 := PartialReduceOp _ _ _ id1 _ _).
  set (st1 := StorageT (<[id1 := out1]> (tensors st)) _).
  destruct (OperatorFacts.fresh_tid_fresh (tensors st)) as [Hfresh1 _].
  fold id1 in Hfresh1.
  assert (Hl1 : tensors st1 !! _lhs op1 = Some l).
  { cbn. rewrite lookup_insert_ne; [done|]. intros ->. congruence. }
  assert (Hr1 : tensors st1 !! _rhs op1 = Some r).
  { cbn. rewrite lookup_insert_ne; [done|]. intros ->. congruence. }
  rewrite (OperatorFacts.apply_run grants factory reduce_op op1 st1 l r Hl1 Hr1 (Hg _ _)).
  cbv zeta. rewrite Hg.
  destruct (OperatorFacts.fresh_tid_fresh (tensors st1)) as [Hfresh2 _].
  set (id2 := fresh_tid (dom (tensors st1))) in *.
  assert (Hne : id1 <> id2).
  { intros Heq. rewrite <- Heq in Hfresh2. cbn in Hfresh2.
    by rewrite lookup_insert_eq in Hfresh2. }
  eexists id1, id2, _, out1. split; [reflexivity|]. cbn [tensors _lhs _rhs].
  split; [done|]. split; [done|]. split.
  { cbn in Hfresh2. by rewrite lookup_insert_ne in Hfresh2. }
  split.
  { rewrite lookup_insert_ne by done. unfold st1. cbn [tensors].
    by rewrite lookup_insert_eq. }
  split; [done|]. split; [rewrite lookup_insert_eq; by eexists|].
  split.
  - rewrite lookup_insert_ne; [exact Hl1|]. intros Heq.
    change (_lhs op1) with (_lhs op) in Hl1. congruence.
  - rewrite lookup_insert_ne; [exact Hr1|]. intros Heq.
    change (_rhs op1) with (_rhs op) in Hr1. congruence.
Qed.

Lemma apply_twice_two_outputs_witness :
  exists id1 id2 st2 out1,
    apply_twice Fixtures.roomy Fixtures.factory0 Fixtures.sum0 Fixtures.op0
                Fixtures.store0
    = ((Committed, id1), (Committed, id2), st2)
    /\ id1 <> id2
    /\ tensors Fixtures.store0 !! id1 = None
    /\ tensors Fixtures.store0 !! id2 = None
    /\ tensors st2 !! id1 = Some out1
    /\ out1 = Tensor (TensorMeta 7 [2]) [11; 22] 16
    /\ is_Some (tensors st2 !! id2)
    /\ tensors st2 !! 1 = Some (Fixtures.vec [1; 2])
    /\ tensors st2 !! 2 = Some (Fixtures.vec [10; 20]).
Proof.
  apply (apply_twice_two_outputs Fixtures.roomy Fixtures.factory0 Fixtures.sum0
           Fixtures.op0 Fixtures.store0 (Fixtures.vec [1; 2]) (Fixtures.vec [10; 20]));
    [intros; reflexivity | reflexivity | reflexivity].
Defined.

End OperatorMoreFacts.

(** ** Generic traffic and the listeners *)

Module ListenerIsolationFacts.
Import Wire Mpi Communicator Listeners Notions Scenarios.

Lemma generic_no_match k src T tag (P : list byte) :
  wire_tag k T <> tag ->
  matches (ANY_NODE k) (ANY_NODE k) tag (Message src (wire_tag k T) P) = false.
Proof. apply CommandChannelFacts.other_tag_no_match. Qed.

(** X17: generic traffic with a non-negative tag wakes none of the three
    listeners: after a [send_sync] to a node, [expect_op_request],
    [expect_cmd] and [receive_tensor_created_notification] on that node all
    stay blocked (the reserved tags being non-negative and below
    [FREE_TAG]). *)
Theorem generic_traffic_wakes_no_listener k a b (P : list byte) T w :
  reserved_below_free k -> 0 <= T <= INT_MAX ->
  Z.of_nat (length P) <= INT_MAX -> calm w ->
  command_probe k b (SEND_CMD_TAG k) w = None ->
  command_probe k b (FORWARD_CMD_TAG k) w = None ->
  notification_probe k b w = None ->
  exists w1,
    send_sync k a P (Z.of_nat (length P)) (_rank b) T w = Some (true, w1)
    /\ expect_op_request k b w1 = None
    /\ expect_cmd k b w1 = None
    /\ receive_tensor_created_notification k b w1 = None.
Proof.
  intros Hk HT Hlen Hc Hqs Hqf Hqn.
  destruct (SyncFacts.wire_tag_clear k T Hk HT) as (Hs & Hf & Hn).
  destruct (TagFacts.send_sync_calm k a (_rank b) P T w Hlen Hc)
    as (w1 & Hrun & Hc1 & Hp1).
  exists w1. split; [done|].
  assert (Hstill : forall tag,
            wire_tag k T <> tag ->
            take_first (matches (ANY_NODE k) (ANY_NODE k) tag) (pending w (_rank b))
            = None ->
            take_first (matches (ANY_NODE k) (ANY_NODE k) tag) (pending w1 (_rank b))
            = None).
  { intros tag Hne Hq. rewrite Hp1, decide_True by done.
    apply CommandChannelFacts.take_first_none_app; [done|]. simpl.
    by rewrite generic_no_match. }
  split; [|split].
  - apply CommandChannelFacts.expect_on_blocks; [apply Hc1|]. by apply Hstill.
  - apply CommandChannelFacts.expect_on_blocks; [apply Hc1|]. by apply Hstill.
  - apply NotificationFacts.receive_blocks; [apply Hc1|]. by apply Hstill.
Qed.

Lemma generic_traffic_wakes_no_listener_witness :
  exists w1,
    send_sync Fixtures.k0 Fixtures.node0 [x01; x02] 2 1 0 (Fixtures.quiet [])
    = Some (true, w1)
    /\ expect_op_request Fixtures.k0 Fixtures.node1 w1 = None
    /\ expect_cmd Fixtures.k0 Fixtures.node1 w1 = None
    /\ receive_tensor_created_notification Fixtures.k0 Fixtures.node1 w1 = None.
Proof.
  apply (generic_traffic_wakes_no_listener Fixtures.k0 Fixtures.node0 Fixtures.node1
           [x01; x02] 0 (Fixtures.quiet [])).
  - unfold reserved_below_free, INT_MAX. simpl. lia.
  - unfold INT_MAX. lia.
  - vm_compute. discriminate.
  - exact NotificationRoundTrip.quiet_calm.
  - reflexivity.
  - reflexivity.
  - reflexivity.
Defined.

(** X18: the shift does not protect the dispatch channel from a negative
    tag: a payload sent with [send_sync] under the tag
    [SEND_CMD_TAG - FREE_TAG] is handed out by [expect_op_request] as if
    it were a command. *)
Theorem stray_tag_reaches_dispatch_listener k a b (P : list byte) w :
  - 2 ^ 31 <= SEND_CMD_TAG k <= INT_MAX ->
  Z.of_nat (length P) <= INT_MAX -> calm w ->
  command_probe k b (SEND_CMD_TAG k) w = None ->
  exists w1 w2,
    send_sync k a P (Z.of_nat (length P)) (_rank b)
              (SEND_CMD_TAG k - FREE_TAG k) w = Some (true, w1)
    /\ expect_op_request k b w1 = Some (Some P, w2).
Proof.
  intros Hs Hlen Hc Hq.
  destruct (TagFacts.send_sync_calm k a (_rank b) P (SEND_CMD_TAG k - FREE_TAG k)
              w Hlen Hc) as (w1 & Hrun & Hc1 & Hp1).
  rewrite (SyncFacts.dispatch_tag_reachable k Hs) in Hp1.
  destruct (CommandChannelFacts.expect_on_calm k b (SEND_CMD_TAG k) w1
              (Message (_rank a) (SEND_CMD_TAG k) P) (pending w (_rank b)) Hc1)
    as (w2 & Hexp & _).
  { unfold command_probe. rewrite Hp1, decide_True by done.
    apply MpiFacts.take_first_app_new; [done|].
    apply CommandChannelFacts.command_matches. }
  by exists w1, w2.
Qed.

Lemma stray_tag_reaches_dispatch_listener_witness :
  exists w1 w2,
    send_sync Fixtures.k0 Fixtures.node0 [x01; x02] 2 1 (-4) (Fixtures.quiet [])
    = Some (true, w1)
    /\ expect_op_request Fixtures.k0 Fixtures.node1 w1 = Some (Some [x01; x02], w2).
Proof.
  apply (stray_tag_reaches_dispatch_listener Fixtures.k0 Fixtures.node0
           Fixtures.node1 [x01; x02] (Fixtures.quiet [])).
  - vm_compute. split; discriminate.
  - vm_compute. discriminate.
  - exact NotificationRoundTrip.quiet_calm.
  - reflexivity.
Defined.

End ListenerIsolationFacts.
